(** * TSaslServerTransport: the server side of the SASL negotiation

    A shallow embedding of [be/src/transport/TSaslServerTransport.cpp]:
    the session object, [setSaslServer], [handleSaslStartMessage] and the
    caching [Factory::getTransport], followed by the properties of the
    negotiation that the design document states about them. *)

From Stdlib Require Import ZArith Lia String Ascii DecimalString.
From Stdlib.Strings Require Import Byte.
From stdpp Require Import base option list gmap strings.

Local Open Scope Z_scope.
Local Open Scope string_scope.
Local Open Scope list_scope.

(** ** Data model *)

(** [NegotiationStatus] is a C++ enumeration; a received status is the cast
    of one wire byte, so it is kept as an integer with named values. *)
Definition NegotiationStatus := Z.

(** Modelled from the spec: the enumerators of [NegotiationStatus], declared
    in TSaslTransport.h; the wire table gives START(1), OK(2), BAD(3),
    ERROR(4), COMPLETE(5). *)
Definition TSASL_START : NegotiationStatus := 1.
Definition TSASL_OK : NegotiationStatus := 2.
Definition TSASL_BAD : NegotiationStatus := 3.
Definition TSASL_ERROR : NegotiationStatus := 4.
Definition TSASL_COMPLETE : NegotiationStatus := 5.

(** The kinds of a Thrift [TTransportException]. *)
Inductive TTransportExceptionType :=
| UNKNOWN | NOT_OPEN | TIMED_OUT | END_OF_FILE | INTERRUPTED
| BAD_ARGS | CORRUPTED_DATA | INTERNAL_ERROR.

(** What the code throws: a [TTransportException] (the one-argument
    constructor gives the kind [UNKNOWN]), or whatever the authentication
    engine raises. *)
Inductive exception :=
| TTransportException (type : TTransportExceptionType) (what : string)
| SaslException (what : string).

Inductive result (A : Type) :=
| Ok (a : A)
| Throw (e : exception).
Arguments Ok {A} a.
Arguments Throw {A} e.

(** One callback descriptor of the SASL library (opaque to this file). *)
Record sasl_callback := { cb_id : Z; cb_proc : Z; cb_context : Z }.

(** A registered mechanism: the fields of [TSaslServerDefinition] that the
    code reads, plus the property map. *)
Record TSaslServerDefinition := {
  protocol_ : string;
  serverName_ : string;
  flags_ : Z;
  props_ : gmap string string;
  callbacks_ : list sasl_callback
}.

(** The authentication engine, [sasl::TSasl], is an interface: the server
    engine is built from a protocol, a server name, a realm, flags and the
    callbacks, which may raise, and one evaluation step consumes a buffer,
    changes the engine and yields a challenge or raises. *)
Class TSasl (E : Type) := {
  TSaslServer :
    string -> string -> string -> Z -> list sasl_callback -> result E;
  evaluateChallengeOrResponse : E -> list byte -> result (list byte) * E
}.

(** A frame written with [sendSaslMessage]. *)
Record Frame := { f_status : NegotiationStatus; f_payload : list byte }.

(** What [receiveSaslMessage] hands back: the status, the length it stores
    in [resLength] (an unsigned 32-bit count) and the memory readable
    through the returned pointer, of which the first [resLength] bytes
    are the payload of the frame. *)
Record SaslMessage := {
  status : NegotiationStatus;
  resLength : Z;
  message : list byte
}.

(** The payload proper: [resLength] bytes starting at [message]. *)
Definition payload (r : SaslMessage) : list byte :=
  firstn (Z.to_nat (resLength r)) (message r).

(** The underlying transport as the wire codec sees it. *)
Record Wire := { incoming : list SaslMessage; sent : list Frame }.

(** Identity of an underlying transport (the address held by the
    [shared_ptr<TTransport>]) and of a session object. *)
Abbreviation TTransportPtr := positive.
Abbreviation TSaslServerTransportPtr := positive.

(** The session object: the fields of [TSaslTransport] and
    [TSaslServerTransport] this file uses. A null [sasl_] is [None]. *)
Record TSaslServerTransport (E : Type) := {
  transport_ : TTransportPtr;
  isClient_ : bool;
  sasl_ : option E;
  serverDefinitionMap_ : gmap string TSaslServerDefinition
}.
Arguments transport_ {E} _.
Arguments isClient_ {E} _.
Arguments sasl_ {E} _.
Arguments serverDefinitionMap_ {E} _.

(** A method runs on its object and on the wire of its transport. *)
Record Env (E : Type) := { self : TSaslServerTransport E; io : Wire }.
Arguments self {E} _.
Arguments io {E} _.
Arguments Build_Env {E} _ _.

(** ** Strings and buffers *)

(** Reading a [char*] as a C string: the bytes up to the first NUL. The
    read ends with the modelled memory when that holds no NUL. *)
Fixpoint c_str (mem : list byte) : string :=
  match mem with
  | [] => EmptyString
  | b :: rest =>
      if Byte.eqb b x00 then EmptyString
      else String (ascii_of_byte b) (c_str rest)
  end.

(** [ss << status]: an enumeration is printed as a decimal integer. *)
Definition show_status (s : NegotiationStatus) : string :=
  NilZero.string_of_int (Z.to_int s).

(** ** A state and exception monad *)

Definition M (St A : Type) : Type := St -> result A * St.

Definition ret {St A} (a : A) : M St A := fun σ => (Ok a, σ).

Definition bind {St A B} (c : M St A) (k : A -> M St B) : M St B :=
  fun σ => match c σ with
           | (Ok a, σ') => k a σ'
           | (Throw e, σ') => (Throw e, σ')
           end.

Definition throw {St A} (e : exception) : M St A := fun σ => (Throw e, σ).

Definition lift {St A} (r : result A) : M St A := fun σ => (r, σ).

Definition gets {St A} (f : St -> A) : M St A := fun σ => (Ok (f σ), σ).

Definition modify {St} (f : St -> St) : M St unit := fun σ => (Ok tt, f σ).

Declare Scope sasl_scope.
Delimit Scope sasl_scope with sasl.
Notation "'do' x <- c ; k" := (bind c (fun x => k))
  (at level 10, x name, c at level 100, k at level 200) : sasl_scope.
Notation "'run' c ; k" := (bind c (fun _ => k))
  (at level 10, c at level 100, k at level 200) : sasl_scope.

(** ** The session *)

Section Session.
Context {E : Type} `{TSasl E}.

Definition set_sasl (e : option E) (t : TSaslServerTransport E)
  : TSaslServerTransport E :=
  {| transport_ := transport_ t; isClient_ := isClient_ t;
     sasl_ := e; serverDefinitionMap_ := serverDefinitionMap_ t |}.

(** Modelled from the spec: the base constructor [TSaslTransport(transport)],
    defined in TSaslTransport.cpp: a session in the server role that wraps
    the transport and has no engine yet; its registry starts empty. *)
Definition TSaslTransport_init (transport : TTransportPtr)
  : TSaslServerTransport E :=
  {| transport_ := transport; isClient_ := false; sasl_ := None;
     serverDefinitionMap_ := ∅ |}.

(** [TSaslServerTransport(serverMap, transport)]: after the base
    constructor, the range insert adds every definition of [serverMap]
    whose name the map does not hold yet. *)
Definition mkTSaslServerTransport
    (serverMap : gmap string TSaslServerDefinition) (transport : TTransportPtr)
  : TSaslServerTransport E :=
  let base := TSaslTransport_init transport in
  {| transport_ := transport_ base; isClient_ := isClient_ base;
     sasl_ := sasl_ base;
     serverDefinitionMap_ := serverDefinitionMap_ base ∪ serverMap |}.

(** [sasl_.reset(p)] *)
Definition sasl_reset (p : option E) : M (Env E) unit :=
  modify (fun σ => Build_Env (set_sasl p (self σ)) (io σ)).

(** [setSaslServer] *)
Definition setSaslServer (saslServer : option E) : M (Env E) unit :=
  (do c <- gets (fun σ => isClient_ (self σ));
   if c : bool then
     throw (TTransportException INTERNAL_ERROR "Setting server in client transport")
   else sasl_reset saslServer)%sasl.

(** Modelled from the spec: [receiveSaslMessage] of the wire codec, defined
    in TSaslTransport.cpp: it reads exactly one frame from the underlying
    transport, and fails when the stream ends first. *)
Definition receiveSaslMessage : M (Env E) SaslMessage :=
  fun σ =>
    match incoming (io σ) with
    | [] => (Throw (TTransportException END_OF_FILE "No more data to read."), σ)
    | r :: rest =>
        (Ok r, Build_Env (self σ) {| incoming := rest; sent := sent (io σ) |})
    end.

(** Modelled from the spec: [sendSaslMessage] of the wire codec, defined in
    TSaslTransport.cpp: it writes one frame, the status and [length] bytes
    of the buffer, to the underlying transport. *)
Definition sendSaslMessage (st : NegotiationStatus) (buf : list byte)
  : M (Env E) unit :=
  modify (fun σ =>
    Build_Env (self σ)
      {| incoming := incoming (io σ);
         sent := sent (io σ) ++ [{| f_status := st; f_payload := buf |}] |}).

(** The registry lookup [serverDefinitionMap_.find(message)]: the key is the
    [std::string] built from the [char*]. *)
Definition findServerDefinition (t : TSaslServerTransport E) (r : SaslMessage)
  : option TSaslServerDefinition :=
  serverDefinitionMap_ t !! c_str (message r).

(** [sasl_->evaluateChallengeOrResponse(buf, len, &len)] on a fresh engine:
    the engine is changed in place, the challenge it returns is dropped. *)
Definition sasl_evaluate (e : E) (buf : list byte) : M (Env E) unit :=
  fun σ =>
    let '(res, e') := evaluateChallengeOrResponse e buf in
    let σ' := Build_Env (set_sasl (Some e') (self σ)) (io σ) in
    match res with
    | Ok _ => (Ok tt, σ')
    | Throw x => (Throw x, σ')
    end.

(** [handleSaslStartMessage] *)
Definition handleSaslStartMessage : M (Env E) unit :=
  (do r <- receiveSaslMessage;
   if negb (Z.eqb (status r) TSASL_START) then
     let ss := "Expecting START status, received " +:+ show_status (status r) in
     run sendSaslMessage TSASL_ERROR (list_byte_of_string ss);
     throw (TTransportException UNKNOWN ss)
   else
     do defn <- gets (fun σ => findServerDefinition (self σ) r);
     match defn with
     | None =>
         let ss := "Unsupported mechanism type " +:+ c_str (message r) in
         run sendSaslMessage TSASL_BAD (list_byte_of_string ss);
         throw (TTransportException BAD_ARGS ss)
     | Some serverDefinition =>
         let realm := "" in
         do server <-
           lift (TSaslServer (protocol_ serverDefinition)
                   (serverName_ serverDefinition) realm
                   (flags_ serverDefinition) (callbacks_ serverDefinition));
         run sasl_reset (Some server);
         sasl_evaluate server (payload r)
     end)%sasl.

End Session.

(** ** A recording engine

    An instance of the engine interface that keeps the arguments it was
    built from and every buffer it was given, in order. *)
Record TraceServer := {
  ts_protocol : string;
  ts_serverName : string;
  ts_realm : string;
  ts_flags : Z;
  ts_callbacks : list sasl_callback;
  ts_inputs : list (list byte)
}.

#[export] Instance TraceServer_TSasl : TSasl TraceServer := {
  TSaslServer p s r f c :=
    Ok {| ts_protocol := p; ts_serverName := s; ts_realm := r; ts_flags := f;
          ts_callbacks := c; ts_inputs := [] |};
  evaluateChallengeOrResponse e buf :=
    (Ok [],
     {| ts_protocol := ts_protocol e; ts_serverName := ts_serverName e;
        ts_realm := ts_realm e; ts_flags := ts_flags e;
        ts_callbacks := ts_callbacks e; ts_inputs := ts_inputs e ++ [buf] |})
}.

(** The buffers the engine of a session has been given so far. *)
Definition forwarded (σ : Env TraceServer) : option (list (list byte)) :=
  ts_inputs <$> sasl_ (self σ).

(** ** Sample data *)

Definition plain_definition : TSaslServerDefinition :=
  {| protocol_ := "impala"; serverName_ := "localhost"; flags_ := 0;
     props_ := ∅; callbacks_ := [{| cb_id := 0; cb_proc := 0; cb_context := 0 |}] |}.

Definition plain_registry : gmap string TSaslServerDefinition :=
  {[ "PLAIN" := plain_definition ]}.

Definition plain_session : TSaslServerTransport TraceServer :=
  mkTSaslServerTransport plain_registry 1%positive.

(** A START frame whose payload is the bare name; the receive buffer is
    followed by a NUL. *)
Definition start_of (name : string) : SaslMessage :=
  {| status := TSASL_START;
     resLength := Z.of_nat (String.length name);
     message := list_byte_of_string name ++ [x00] |}.

Definition wire_of (r : SaslMessage) : Wire := {| incoming := [r]; sent := [] |}.

(** ** The factory and its cache *)

Module Factory.

(** The members of [TSaslServerTransport::Factory]: the registry handed to
    every new session and the cache from an underlying transport to the
    session wrapping it. The mutex appears with the threads below. *)
Record state := {
  serverDefinitionMap_ : gmap string TSaslServerDefinition;
  transportMap_ : gmap TTransportPtr TSaslServerTransportPtr
}.

(** The process around a factory: the session objects on the heap, the
    wire of every underlying transport, and the transports that have been
    closed. *)
Record Process (E : Type) := {
  factory : state;
  objects : gmap TSaslServerTransportPtr (TSaslServerTransport E);
  wires : gmap TTransportPtr Wire;
  closed : gset TTransportPtr
}.
Arguments factory {E} _.
Arguments objects {E} _.
Arguments wires {E} _.
Arguments closed {E} _.
Arguments Build_Process {E} _ _ _ _.

Definition wire_at {E} (σ : Process E) (trans : TTransportPtr) : Wire :=
  default {| incoming := []; sent := [] |} (wires σ !! trans).

Section Factory.
Context {E : Type} `{TSasl E}.

(** [TSaslTransport::open], which drives the handshake of a session, is
    defined in TSaslTransport.cpp; it is a parameter here. It runs on the
    session and on the wire of its transport. *)
Variable open : M (Env E) unit.

(** [getTransport]. The lock guard taken on entry is released on every
    way out and leaves no trace in a single-threaded run. The session is
    allocated by [new], opened, and only then entered in the cache; when
    [open] raises, the only reference to it is dropped. *)
Definition getTransport (trans : TTransportPtr)
  : M (Process E) TSaslServerTransportPtr :=
  fun σ =>
    match transportMap_ (factory σ) !! trans with
    | None =>
        let retTransport := fresh (dom (objects σ)) in
        let session := mkTSaslServerTransport (serverDefinitionMap_ (factory σ)) trans in
        match open (Build_Env session (wire_at σ trans)) with
        | (Ok _, σs) =>
            (Ok retTransport,
             Build_Process
               {| serverDefinitionMap_ := serverDefinitionMap_ (factory σ);
                  transportMap_ := <[trans := retTransport]> (transportMap_ (factory σ)) |}
               (<[retTransport := self σs]> (objects σ))
               (<[trans := io σs]> (wires σ))
               (closed σ))
        | (Throw e, σs) =>
            (Throw e,
             Build_Process (factory σ) (objects σ)
               (<[trans := io σs]> (wires σ)) (closed σ))
        end
    | Some session => (Ok session, σ)
    end.

(** Modelled from the spec: [close()] of the underlying transport, an
    external collaborator. The transport holds no reference to a factory:
    closing it marks it closed and touches nothing else. *)
Definition close (trans : TTransportPtr) (σ : Process E) : Process E :=
  Build_Process (factory σ) (objects σ) (wires σ) ({[ trans ]} ∪ closed σ).

(** What a program does with a factory and its transports. *)
Inductive op :=
| GetTransport (trans : TTransportPtr)
| Close (trans : TTransportPtr).

Definition run_op (o : op) (σ : Process E) : Process E :=
  match o with
  | GetTransport trans => snd (getTransport trans σ)
  | Close trans => close trans σ
  end.

Definition run_ops (os : list op) (σ : Process E) : Process E :=
  fold_left (fun s o => run_op o s) os σ.

(** *** Threads

    Each thread is inside one call of [getTransport]; the program points
    are the lines of the function. *)
Inductive pc :=
| Entry (trans : TTransportPtr)
  (* before the [lock_guard] on [transportMap_mutex_] *)
| Locked (trans : TTransportPtr)
  (* mutex held, before [transportMap_.find] *)
| Opening (trans : TTransportPtr) (retTransport : TSaslServerTransportPtr)
  (* mutex held, the new session is about to run [open] *)
| Inserting (trans : TTransportPtr) (retTransport : TSaslServerTransportPtr)
  (* mutex held, before [transportMap_[trans] = retTransport] *)
| Leaving (trans : TTransportPtr) (r : result TSaslServerTransportPtr)
  (* mutex held, the guard is about to be destroyed *)
| Returned (trans : TTransportPtr) (r : result TSaslServerTransportPtr).

Record Conc := {
  transportMap_mutex_ : option nat;
  process : Process E;
  threads : gmap nat pc
}.

Definition set_thread (i : nat) (p : pc) (c : Conc) : Conc :=
  {| transportMap_mutex_ := transportMap_mutex_ c;
     process := process c;
     threads := <[i := p]> (threads c) |}.

Definition set_process (σ : Process E) (c : Conc) : Conc :=
  {| transportMap_mutex_ := transportMap_mutex_ c;
     process := σ;
     threads := threads c |}.

Definition set_mutex (o : option nat) (c : Conc) : Conc :=
  {| transportMap_mutex_ := o; process := process c; threads := threads c |}.

(** One step of thread [i]; [None] when the thread cannot move: it waits
    for the mutex, has returned, or does not exist. The whole of [open] is
    one step, taken with the mutex held: a handshake that waits for its
    peer is not represented, so the steps say what a call may do and what
    it excludes, not that it ever gets there. *)
Definition thread_step (i : nat) (c : Conc) : option Conc :=
  let σ := process c in
  match threads c !! i with
  | Some (Entry trans) =>
      match transportMap_mutex_ c with
      | None => Some (set_thread i (Locked trans) (set_mutex (Some i) c))
      | Some _ => None
      end
  | Some (Locked trans) =>
      match transportMap_ (factory σ) !! trans with
      | None =>
          let retTransport := fresh (dom (objects σ)) in
          let session := mkTSaslServerTransport (serverDefinitionMap_ (factory σ)) trans in
          Some (set_thread i (Opening trans retTransport)
                  (set_process
                     (Build_Process (factory σ)
                        (<[retTransport := session]> (objects σ))
                        (wires σ) (closed σ)) c))
      | Some session => Some (set_thread i (Leaving trans (Ok session)) c)
      end
  | Some (Opening trans retTransport) =>
      match objects σ !! retTransport with
      | None => None
      | Some session =>
          match open (Build_Env session (wire_at σ trans)) with
          | (Ok _, σs) =>
              Some (set_thread i (Inserting trans retTransport)
                      (set_process
                         (Build_Process (factory σ)
                            (<[retTransport := self σs]> (objects σ))
                            (<[trans := io σs]> (wires σ)) (closed σ)) c))
          | (Throw e, σs) =>
              Some (set_thread i (Leaving trans (Throw e))
                      (set_process
                         (Build_Process (factory σ)
                            (delete retTransport (objects σ))
                            (<[trans := io σs]> (wires σ)) (closed σ)) c))
          end
      end
  | Some (Inserting trans retTransport) =>
      Some (set_thread i (Leaving trans (Ok retTransport))
              (set_process
                 (Build_Process
                    {| serverDefinitionMap_ := serverDefinitionMap_ (factory σ);
                       transportMap_ :=
                         <[trans := retTransport]> (transportMap_ (factory σ)) |}
                    (objects σ) (wires σ) (closed σ)) c))
  | Some (Leaving trans r) =>
      Some (set_thread i (Returned trans r) (set_mutex None c))
  | Some (Returned _ _) | None => None
  end.

Definition step (c c' : Conc) : Prop := ∃ i, thread_step i c = Some c'.

(** The states a pool of threads can reach from [c]. *)
Inductive reachable (c : Conc) : Conc -> Prop :=
| reach_refl : reachable c c
| reach_step c1 c2 : reachable c c1 -> step c1 c2 -> reachable c c2.

(** A thread is blocked when it stands at the entry of its call and has
    no step. *)
Definition blocked (i : nat) (c : Conc) : Prop :=
  (∃ trans, threads c !! i = Some (Entry trans)) ∧ thread_step i c = None.

(** The threads inside the guarded region of [getTransport]. *)
Definition holds_guard (p : pc) : bool :=
  match p with
  | Locked _ | Opening _ _ | Inserting _ _ | Leaving _ _ => true
  | Entry _ | Returned _ _ => false
  end.

(** A pool in which every thread is at the entry of a call and the mutex
    is free. *)
Definition initial (c : Conc) : Prop :=
  transportMap_mutex_ c = None ∧
  ∀ i p, threads c !! i = Some p → ∃ trans, p = Entry trans.

(** Running the threads in the order of a schedule; [None] when a
    scheduled thread cannot move. *)
Fixpoint run_threads (schedule : list nat) (c : Conc) : option Conc :=
  match schedule with
  | [] => Some c
  | i :: rest =>
      match thread_step i c with
      | Some c' => run_threads rest c'
      | None => None
      end
  end.

(** Whoever is inside the guarded region owns the mutex. *)
Definition guard_inv (c : Conc) : Prop :=
  ∀ i p, threads c !! i = Some p → holds_guard p = true →
         transportMap_mutex_ c = Some i.

(** A thread past a failed lookup still sees no entry for its transport. *)
Definition miss_inv (c : Conc) : Prop :=
  ∀ i trans p,
    threads c !! i = Some (Opening trans p) ∨
    threads c !! i = Some (Inserting trans p) →
    transportMap_ (factory (process c)) !! trans = None.

(** A session about to be returned, or returned, is the one the cache holds
    for the transport of the call. *)
Definition ret_inv (c : Conc) : Prop :=
  ∀ i trans p,
    threads c !! i = Some (Leaving trans (Ok p)) ∨
    threads c !! i = Some (Returned trans (Ok p)) →
    transportMap_ (factory (process c)) !! trans = Some p.

Definition inv (c : Conc) : Prop := guard_inv c ∧ miss_inv c ∧ ret_inv c.

(** The transport a thread has called [getTransport] for. *)
Definition transport_of (p : pc) : TTransportPtr :=
  match p with
  | Entry trans | Locked trans | Opening trans _ | Inserting trans _
  | Leaving trans _ | Returned trans _ => trans
  end.

(** The design document's reading of the lock: a call that is past the
    lock never makes a call for another transport wait. *)
Definition distinct_calls_never_block : Prop :=
  ∀ c0 c, initial c0 → reachable c0 c →
    ∀ i j p trans,
      threads c !! i = Some p → holds_guard p = true →
      threads c !! j = Some (Entry trans) → transport_of p ≠ trans →
      ¬ blocked j c.

End Factory.
End Factory.

(** A process with two fresh transports, each with a START frame for
    PLAIN on its wire, and two threads, each calling [getTransport] for
    one of them. *)
Definition two_transports : Factory.Process TraceServer :=
  Factory.Build_Process
    {| Factory.serverDefinitionMap_ := plain_registry;
       Factory.transportMap_ := ∅ |}
    ∅
    {[ 1%positive := wire_of (start_of "PLAIN");
       2%positive := wire_of (start_of "PLAIN") ]}
    ∅.

Definition two_calls : Factory.Conc (E:=TraceServer) :=
  {| Factory.transportMap_mutex_ := None;
     Factory.process := two_transports;
     Factory.threads :=
       {[ 0%nat := Factory.Entry 1%positive;
          1%nat := Factory.Entry 2%positive ]} |}.

(** A process whose only transport carries a START frame for a mechanism
    that is not registered. *)
Definition gssapi_transport : Factory.Process TraceServer :=
  Factory.Build_Process
    {| Factory.serverDefinitionMap_ := plain_registry;
       Factory.transportMap_ := ∅ |}
    ∅
    {[ 1%positive := wire_of (start_of "GSSAPI") ]}
    ∅.

(** The first process after a call of [getTransport] for transport 1, with
    [handleSaslStartMessage] as the handshake. *)
Definition after_first_call : Factory.Process TraceServer :=
  snd (Factory.getTransport handleSaslStartMessage 1%positive two_transports).

(** The first process after transport 1 has been wrapped and then closed. *)
Definition used_then_closed : Factory.Process TraceServer :=
  Factory.run_ops handleSaslStartMessage
    [Factory.GetTransport 1%positive; Factory.Close 1%positive] two_transports.

(** The two threads after the first has taken the lock and found no
    session for its transport: its handshake is about to run. *)
Definition during_handshake : Factory.Conc (E:=TraceServer) :=
  default two_calls
    (Factory.run_threads handleSaslStartMessage [0%nat; 0%nat] two_calls).

(** ** The design document's reading of the START payload *)

(** The bytes of a buffer after its leading NUL-terminated name, empty when
    nothing follows the name. *)
Fixpoint after_name (buf : list byte) : list byte :=
  match buf with
  | [] => []
  | b :: rest => if Byte.eqb b x00 then rest else after_name rest
  end.

(** The text of a diagnostic as a function of the received status and of
    the received mechanism name. *)
Definition diagnostic (st : NegotiationStatus) (name : string) : string :=
  if Z.eqb st TSASL_START then "Unsupported mechanism type " +:+ name
  else "Expecting START status, received " +:+ show_status st.

(** The design document's reading of the START step: the engine built from
    the resolved definition is given the bytes after the mechanism name. *)
Definition start_forwards_after_name (E : Type) `{TSasl E} : Prop :=
  ∀ (t : TSaslServerTransport E) (w : Wire) (r : SaslMessage)
    (rest : list SaslMessage) (d : TSaslServerDefinition),
    incoming w = r :: rest →
    status r = TSASL_START →
    findServerDefinition t r = Some d →
    ∀ server : E,
      TSaslServer (protocol_ d) (serverName_ d) "" (flags_ d) (callbacks_ d)
        = Ok server →
      self (snd (handleSaslStartMessage (Build_Env t w))) =
        set_sasl
          (Some (snd (evaluateChallengeOrResponse server
                        (after_name (payload r)))))
          t.

(** The design document's reading of eviction: starting from an empty
    cache, a transport that has been closed has no entry in the cache. *)
Definition closed_transports_evicted {E : Type} `{TSasl E}
    (open : M (Env E) unit) : Prop :=
  ∀ (os : list Factory.op) (σ : Factory.Process E),
    Factory.transportMap_ (Factory.factory σ) = ∅ →
    Factory.closed σ = ∅ →
    ∀ trans, trans ∈ Factory.closed (Factory.run_ops open os σ) →
      Factory.transportMap_ (Factory.factory (Factory.run_ops open os σ))
        !! trans = None.

(** The wire after one frame has been taken from it and the frames [new]
    have been written to it. *)
Definition consumed (w : Wire) (rest : list SaslMessage) (new : list Frame) : Wire :=
  {| incoming := rest; sent := sent w ++ new |}.

(** The session [t] with another registry. *)
Definition with_registry {E} (m : gmap string TSaslServerDefinition)
    (t : TSaslServerTransport E) : TSaslServerTransport E :=
  {| transport_ := transport_ t; isClient_ := isClient_ t;
     sasl_ := sasl_ t; serverDefinitionMap_ := m |}.

(** ** The other constructors *)

Section Constructors.
Context {E : Type} `{TSasl E}.

(** [TSaslServerTransport(transport)]: the base constructor and nothing
    else, so the registry is the empty map it starts as. *)
Definition mkTSaslServerTransport_bare (transport : TTransportPtr)
  : TSaslServerTransport E :=
  TSaslTransport_init transport.

(** Modelled from the spec: [addServerDefinition], declared in
    TSaslServerTransport.h: it registers under the mechanism name a
    definition made of the protocol, the server name, the flags, the
    properties and the callbacks. *)
Definition addServerDefinition (mechanism protocol serverName : string)
    (flags : Z) (props : gmap string string) (callbacks : list sasl_callback)
    (t : TSaslServerTransport E) : TSaslServerTransport E :=
  with_registry
    (<[mechanism := {| protocol_ := protocol; serverName_ := serverName;
                       flags_ := flags; props_ := props;
                       callbacks_ := callbacks |}]> (serverDefinitionMap_ t))
    t.

(** [TSaslServerTransport(mechanism, protocol, serverName, flags, props,
    callbacks, transport)] *)
Definition mkTSaslServerTransport_mechanism (mechanism protocol serverName : string)
    (flags : Z) (props : gmap string string) (callbacks : list sasl_callback)
    (transport : TTransportPtr) : TSaslServerTransport E :=
  addServerDefinition mechanism protocol serverName flags props callbacks
    (TSaslTransport_init transport).

End Constructors.

(** ** Notions used in the properties *)

(** Whether a string holds a NUL character. *)
Fixpoint has_nul (s : string) : bool :=
  match s with
  | EmptyString => false
  | String c s' => if Ascii.eqb c Ascii.zero then true else has_nul s'
  end.

(** The fields of a session that only its constructors set. *)
Definition same_fixed_fields {E} (t t' : TSaslServerTransport E) : Prop :=
  transport_ t' = transport_ t ∧ isClient_ t' = isClient_ t ∧
  serverDefinitionMap_ t' = serverDefinitionMap_ t.

(** A handshake that leaves those fields alone. *)
Definition keeps_fixed_fields {E} (open : M (Env E) unit) : Prop :=
  ∀ σ, same_fixed_fields (self σ) (self (snd (open σ))).

(** Every cached address is allocated, and no two transports share one. *)
Definition cache_wf {E} (σ : Factory.Process E) : Prop :=
  (∀ trans p, Factory.transportMap_ (Factory.factory σ) !! trans = Some p →
              is_Some (Factory.objects σ !! p)) ∧
  (∀ trans1 trans2 p,
     Factory.transportMap_ (Factory.factory σ) !! trans1 = Some p →
     Factory.transportMap_ (Factory.factory σ) !! trans2 = Some p →
     trans1 = trans2).

(** Every cached session wraps the transport it is cached under, in the
    server role, and holds the registry of the factory. *)
Definition cache_bound {E} (σ : Factory.Process E) : Prop :=
  ∀ trans p session,
    Factory.transportMap_ (Factory.factory σ) !! trans = Some p →
    Factory.objects σ !! p = Some session →
    transport_ session = trans ∧ isClient_ session = false ∧
    serverDefinitionMap_ session =
      Factory.serverDefinitionMap_ (Factory.factory σ).

(** The mutex is owned by a thread inside the guarded region, and the
    session a thread is about to open is on the heap. *)
Definition owner_inv {E} (c : Factory.Conc (E:=E)) : Prop :=
  (∀ i, Factory.transportMap_mutex_ c = Some i →
        ∃ p, Factory.threads c !! i = Some p ∧ Factory.holds_guard p = true) ∧
  (∀ i trans p, Factory.threads c !! i = Some (Factory.Opening trans p) →
                is_Some (Factory.objects (Factory.process c) !! p)).

(** Two START frames of length 4 with the same payload, the name NOPE
    without a NUL: the buffer of the first is followed in memory by the
    bytes of "hunter2" and a NUL, the buffer of the second by a NUL. *)
Definition nope_before_secret : SaslMessage :=
  {| status := TSASL_START; resLength := 4;
     message := list_byte_of_string "NOPE"
                ++ list_byte_of_string "hunter2" ++ [x00] |}.

Definition nope_before_nul : SaslMessage :=
  {| status := TSASL_START; resLength := 4;
     message := list_byte_of_string "NOPE" ++ [x00] |}.

(** One thread calling [getTransport] for a transport whose first frame
    names a mechanism that is not registered, and the state after the
    thread has run its call to the end. *)
Definition one_rejected_call : Factory.Conc (E:=TraceServer) :=
  {| Factory.transportMap_mutex_ := None;
     Factory.process := gssapi_transport;
     Factory.threads := {[ 0%nat := Factory.Entry 1%positive ]} |}.

Definition after_rejected_call : Factory.Conc (E:=TraceServer) :=
  default one_rejected_call
    (Factory.run_threads handleSaslStartMessage
       [0%nat; 0%nat; 0%nat; 0%nat] one_rejected_call).

(** A wire on which a rejected START frame is followed by a good one. *)
Definition retry_transport : Factory.Process TraceServer :=
  Factory.Build_Process
    {| Factory.serverDefinitionMap_ := plain_registry;
       Factory.transportMap_ := ∅ |}
    ∅
    {[ 1%positive :=
         {| incoming := [start_of "GSSAPI"; start_of "PLAIN"]; sent := [] |} ]}
    ∅.

(** * Properties *)

(** ** C strings *)

Lemma c_str_app_nul (name rest : list byte) :
  Forall (λ b, b ≠ x00) name →
  c_str (name ++ x00 :: rest) = string_of_list_byte name.
Proof.
  induction 1 as [|b name Hb _ IH]; simpl.
  - reflexivity.
  - destruct (Byte.eqb b x00) eqn:Heq.
    + apply Byte.byte_dec_bl in Heq. contradiction.
    + unfold string_of_list_byte in *. simpl. now rewrite IH.
Qed.

Lemma firstn_is_prefix {A} (n : nat) (l p : list A) :
  firstn n l = p → ∃ slack, l = p ++ slack.
Proof.
  intros <-. exists (skipn n l). symmetry. apply firstn_skipn.
Qed.

Lemma c_str_of_payload (r : SaslMessage) (name rest : list byte) :
  Forall (λ b, b ≠ x00) name →
  payload r = name ++ x00 :: rest →
  c_str (message r) = string_of_list_byte name.
Proof.
  intros Hname Hp. unfold payload in Hp.
  destruct (firstn_is_prefix _ _ _ Hp) as [slack ->].
  rewrite <- app_assoc. simpl. now apply c_str_app_nul.
Qed.

(** ** The session *)

Section SessionProperties.
Context {E : Type} `{TSasl E}.

Ltac run_start Hin :=
  unfold handleSaslStartMessage, bind, receiveSaslMessage, sendSaslMessage,
    sasl_reset, sasl_evaluate, throw, lift, gets, modify; simpl;
  rewrite Hin; simpl.

Lemma start_not_START (t : TSaslServerTransport E) (w : Wire)
    (r : SaslMessage) (rest : list SaslMessage) :
  incoming w = r :: rest →
  status r ≠ TSASL_START →
  let ss := "Expecting START status, received " +:+ show_status (status r) in
  handleSaslStartMessage (Build_Env t w) =
    (Throw (TTransportException UNKNOWN ss),
     Build_Env t (consumed w rest
       [{| f_status := TSASL_ERROR; f_payload := list_byte_of_string ss |}])).
Proof.
  intros Hin Hst. run_start Hin.
  destruct (Z.eqb_spec (status r) TSASL_START); [contradiction|]. reflexivity.
Qed.

Lemma start_unresolved (t : TSaslServerTransport E) (w : Wire)
    (r : SaslMessage) (rest : list SaslMessage) :
  incoming w = r :: rest →
  status r = TSASL_START →
  findServerDefinition t r = None →
  let ss := "Unsupported mechanism type " +:+ c_str (message r) in
  handleSaslStartMessage (Build_Env t w) =
    (Throw (TTransportException BAD_ARGS ss),
     Build_Env t (consumed w rest
       [{| f_status := TSASL_BAD; f_payload := list_byte_of_string ss |}])).
Proof.
  intros Hin Hst Hfind. run_start Hin.
  rewrite Hst. simpl. rewrite Hfind. reflexivity.
Qed.

Lemma start_resolved (t : TSaslServerTransport E) (w : Wire)
    (r : SaslMessage) (rest : list SaslMessage) (d : TSaslServerDefinition)
    (server : E) :
  incoming w = r :: rest →
  status r = TSASL_START →
  findServerDefinition t r = Some d →
  TSaslServer (protocol_ d) (serverName_ d) "" (flags_ d) (callbacks_ d)
    = Ok server →
  let step := evaluateChallengeOrResponse server (payload r) in
  handleSaslStartMessage (Build_Env t w) =
    (match fst step with Ok _ => Ok tt | Throw x => Throw x end,
     Build_Env (set_sasl (Some (snd step)) t) (consumed w rest [])).
Proof.
  intros Hin Hst Hfind Hnew. run_start Hin.
  rewrite Hst. simpl. rewrite Hfind, Hnew.
  destruct (evaluateChallengeOrResponse _ _) as [[c|x] e']; simpl;
    unfold consumed; rewrite app_nil_r; reflexivity.
Qed.

Lemma start_resolved_no_engine (t : TSaslServerTransport E) (w : Wire)
    (r : SaslMessage) (rest : list SaslMessage) (d : TSaslServerDefinition)
    (x : exception) :
  incoming w = r :: rest →
  status r = TSASL_START →
  findServerDefinition t r = Some d →
  TSaslServer (protocol_ d) (serverName_ d) "" (flags_ d) (callbacks_ d)
    = Throw x →
  handleSaslStartMessage (Build_Env t w) =
    (Throw x, Build_Env t (consumed w rest [])).
Proof.
  intros Hin Hst Hfind Hnew. run_start Hin.
  rewrite Hst. simpl. rewrite Hfind, Hnew.
  unfold consumed; rewrite app_nil_r; reflexivity.
Qed.

End SessionProperties.

Section SessionClaims.
Context {E : Type} `{TSasl E}.



(** C2. A first frame whose status is not START makes
    [handleSaslStartMessage] write one ERROR frame carrying the text
    "Expecting START status, received <status>" and raise a transport
    exception with that text (the protocol violation); the session object,
    and so its engine, is left as it was, and the outcome is the same
    under every registry. *)
Theorem non_start_status_rejected (t : TSaslServerTransport E) (w : Wire)
    (r : SaslMessage) (rest : list SaslMessage) :
  incoming w = r :: rest →
  status r ≠ TSASL_START →
  let ss := "Expecting START status, received " +:+ show_status (status r) in
  let out := handleSaslStartMessage (Build_Env t w) in
  fst out = Throw (TTransportException UNKNOWN ss) ∧
  sent (io (snd out)) =
    sent w ++ [{| f_status := TSASL_ERROR; f_payload := list_byte_of_string ss |}] ∧
  self (snd out) = t ∧
  sasl_ (self (snd out)) = sasl_ t ∧
  (∀ m : gmap string TSaslServerDefinition,
     let out' := handleSaslStartMessage (Build_Env (with_registry m t) w) in
     fst out' = fst out ∧ io (snd out') = io (snd out) ∧
     sasl_ (self (snd out')) = sasl_ t).
Proof.
  intros Hin Hst ss out. subst out ss.
  rewrite (start_not_START t w r rest Hin Hst). simpl.
  repeat split; auto.
  all: rewrite (start_not_START (with_registry m t) w r rest Hin Hst); reflexivity.
Qed.

(** C3, as the code has it. A START frame naming a registered mechanism
    makes [handleSaslStartMessage] build the engine from the protocol, the
    server name, an empty realm, the flags and the callbacks of the resolved
    definition, and, the engine once built, give its first evaluation step
    the whole payload of the frame, the mechanism name included; the call
    raises what the step raises, the session keeps the engine the step
    leaves, and no frame is written. *)
Theorem start_forwards_whole_payload (t : TSaslServerTransport E) (w : Wire)
    (r : SaslMessage) (rest : list SaslMessage) (d : TSaslServerDefinition)
    (server : E) :
  incoming w = r :: rest →
  status r = TSASL_START →
  findServerDefinition t r = Some d →
  TSaslServer (protocol_ d) (serverName_ d) "" (flags_ d) (callbacks_ d)
    = Ok server →
  let step := evaluateChallengeOrResponse server (payload r) in
  let out := handleSaslStartMessage (Build_Env t w) in
  fst out = match fst step with Ok _ => Ok tt | Throw x => Throw x end ∧
  self (snd out) = set_sasl (Some (snd step)) t ∧
  io (snd out) = {| incoming := rest; sent := sent w |}.
Proof.
  intros Hin Hst Hfind Hnew step out. subst out step.
  rewrite (start_resolved t w r rest d server Hin Hst Hfind Hnew). simpl.
  unfold consumed. rewrite app_nil_r. auto.
Qed.

(** Whatever frame arrives first, [handleSaslStartMessage] writes at most
    one frame, and the payload of every ERROR or BAD frame it writes is
    the text [diagnostic] of the received status and of the C string read
    at the receive buffer, which ends at the first NUL and not at the
    received length. *)
Lemma diagnostic_from_status_and_name (t : TSaslServerTransport E) (w : Wire)
    (r : SaslMessage) (rest : list SaslMessage) :
  incoming w = r :: rest →
  ∃ new : list Frame,
    sent (io (snd (handleSaslStartMessage (Build_Env t w)))) = sent w ++ new ∧
    (length new ≤ 1)%nat ∧
    ∀ fr, fr ∈ new →
      f_status fr = TSASL_ERROR ∨ f_status fr = TSASL_BAD →
      f_payload fr =
        list_byte_of_string (diagnostic (status r) (c_str (message r))).
Proof.
  intros Hin. unfold diagnostic.
  destruct (Z.eqb_spec (status r) TSASL_START) as [Hst|Hst].
  - destruct (findServerDefinition t r) as [d|] eqn:Hfind.
    + exists [].
      destruct (TSaslServer (protocol_ d) (serverName_ d) "" (flags_ d)
                  (callbacks_ d)) as [server|x] eqn:Hnew.
      * rewrite (start_resolved t w r rest d server Hin Hst Hfind Hnew). simpl.
        repeat split; [lia|]. intros fr Hfr. inversion Hfr.
      * rewrite (start_resolved_no_engine t w r rest d x Hin Hst Hfind Hnew).
        simpl. repeat split; [lia|]. intros fr Hfr. inversion Hfr.
    + eexists. rewrite (start_unresolved t w r rest Hin Hst Hfind). simpl.
      repeat split; [simpl; lia|].
      intros fr Hfr _. apply list_elem_of_singleton in Hfr. now subst fr.
  - eexists. rewrite (start_not_START t w r rest Hin Hst). simpl.
    repeat split; [simpl; lia|].
    intros fr Hfr _. apply list_elem_of_singleton in Hfr. now subst fr.
Qed.

(** C7, at the input where the code departs from it. Two START frames
    with the same status, the same length and the same payload, the name
    NOPE, are answered with different BAD frames: the name is read from
    the buffer as a C string, the payload holds no NUL, and the read runs
    past the received length into the bytes that follow the buffer, which
    end up in the diagnostic sent to the peer. *)
Theorem diagnostic_reads_past_payload :
  status nope_before_secret = status nope_before_nul ∧
  resLength nope_before_secret = resLength nope_before_nul ∧
  payload nope_before_secret = payload nope_before_nul ∧
  payload nope_before_secret = list_byte_of_string "NOPE" ∧
  sent (io (snd (handleSaslStartMessage
                   (Build_Env plain_session (wire_of nope_before_secret))))) =
    [{| f_status := TSASL_BAD;
        f_payload :=
          list_byte_of_string "Unsupported mechanism type NOPEhunter2" |}] ∧
  sent (io (snd (handleSaslStartMessage
                   (Build_Env plain_session (wire_of nope_before_nul))))) =
    [{| f_status := TSASL_BAD;
        f_payload := list_byte_of_string "Unsupported mechanism type NOPE" |}] ∧
  sent (io (snd (handleSaslStartMessage
                   (Build_Env plain_session (wire_of nope_before_secret))))) ≠
  sent (io (snd (handleSaslStartMessage
                   (Build_Env plain_session (wire_of nope_before_nul))))).
Proof.
  assert (Hfind1 : findServerDefinition plain_session nope_before_secret = None)
    by (vm_compute; reflexivity).
  assert (Hfind2 : findServerDefinition plain_session nope_before_nul = None)
    by (vm_compute; reflexivity).
  rewrite (start_unresolved plain_session (wire_of nope_before_secret)
             nope_before_secret [] eq_refl eq_refl Hfind1).
  rewrite (start_unresolved plain_session (wire_of nope_before_nul)
             nope_before_nul [] eq_refl eq_refl Hfind2).
  repeat split; try reflexivity.
  simpl. intros Heq. vm_compute in Heq. discriminate Heq.
Qed.

(** C8. The registry lookup of a START frame reads the payload as a C
    string: two payloads that hold the same bytes before their first NUL
    are looked up under the same key, those bytes, whatever follows the
    NUL. *)
Theorem mechanism_name_ends_at_first_nul (t : TSaslServerTransport E)
    (r1 r2 : SaslMessage) (name rest1 rest2 : list byte) :
  Forall (λ b, b ≠ x00) name →
  payload r1 = name ++ x00 :: rest1 →
  payload r2 = name ++ x00 :: rest2 →
  findServerDefinition t r1 = findServerDefinition t r2 ∧
  findServerDefinition t r1 = serverDefinitionMap_ t !! string_of_list_byte name.
Proof.
  intros Hname H1 H2. unfold findServerDefinition.
  rewrite (c_str_of_payload r1 name rest1 Hname H1).
  rewrite (c_str_of_payload r2 name rest2 Hname H2). auto.
Qed.

(** C10. [setSaslServer] on a client-role transport raises the
    INTERNAL_ERROR transport exception and leaves the session, its engine
    included, as it was; on a server-role transport it returns and the
    engine of the session is the given one. *)
Theorem setSaslServer_by_role (t : TSaslServerTransport E) (w : Wire)
    (saslServer : option E) :
  let out := setSaslServer saslServer (Build_Env t w) in
  if isClient_ t then
    fst out = Throw (TTransportException INTERNAL_ERROR
                       "Setting server in client transport") ∧
    snd out = Build_Env t w ∧ sasl_ (self (snd out)) = sasl_ t
  else
    fst out = Ok tt ∧ sasl_ (self (snd out)) = saslServer ∧
    snd out = Build_Env (set_sasl saslServer t) w.
Proof.
  unfold setSaslServer, bind, gets, throw, sasl_reset, modify. simpl.
  destruct (isClient_ t); simpl; auto.
Qed.

End SessionClaims.

(** ** The factory *)

Section FactoryClaims.
Context {E : Type} `{TSasl E}.
Variable open : M (Env E) unit.

(** The session handed to [open] holds the registry of the factory, wraps
    the given transport and has no engine yet. *)
Lemma new_session_fields (m : gmap string TSaslServerDefinition)
    (trans : TTransportPtr) :
  serverDefinitionMap_ (mkTSaslServerTransport (E:=E) m trans) = m ∧
  transport_ (mkTSaslServerTransport (E:=E) m trans) = trans ∧
  sasl_ (mkTSaslServerTransport (E:=E) m trans) = None.
Proof.
  unfold mkTSaslServerTransport; simpl. repeat split.
  apply (left_id_L ∅ (∪)).
Qed.

Lemma getTransport_hit (trans : TTransportPtr) (σ : Factory.Process E)
    (p : TSaslServerTransportPtr) :
  Factory.transportMap_ (Factory.factory σ) !! trans = Some p →
  Factory.getTransport open trans σ = (Ok p, σ).
Proof. intros Hhit. unfold Factory.getTransport. now rewrite Hhit. Qed.

Lemma getTransport_miss_ok (trans : TTransportPtr) (σ : Factory.Process E)
    (σs : Env E) (u : unit) :
  Factory.transportMap_ (Factory.factory σ) !! trans = None →
  open (Build_Env
          (mkTSaslServerTransport
             (Factory.serverDefinitionMap_ (Factory.factory σ)) trans)
          (Factory.wire_at σ trans)) = (Ok u, σs) →
  let p := fresh (dom (Factory.objects σ)) in
  Factory.getTransport open trans σ =
    (Ok p,
     Factory.Build_Process
       {| Factory.serverDefinitionMap_ :=
            Factory.serverDefinitionMap_ (Factory.factory σ);
          Factory.transportMap_ :=
            <[trans := p]> (Factory.transportMap_ (Factory.factory σ)) |}
       (<[p := self σs]> (Factory.objects σ))
       (<[trans := io σs]> (Factory.wires σ))
       (Factory.closed σ)).
Proof.
  intros Hmiss Hopen. unfold Factory.getTransport.
  now rewrite Hmiss, Hopen.
Qed.

Lemma getTransport_miss_throw (trans : TTransportPtr) (σ : Factory.Process E)
    (σs : Env E) (e : exception) :
  Factory.transportMap_ (Factory.factory σ) !! trans = None →
  open (Build_Env
          (mkTSaslServerTransport
             (Factory.serverDefinitionMap_ (Factory.factory σ)) trans)
          (Factory.wire_at σ trans)) = (Throw e, σs) →
  Factory.getTransport open trans σ =
    (Throw e,
     Factory.Build_Process (Factory.factory σ) (Factory.objects σ)
       (<[trans := io σs]> (Factory.wires σ)) (Factory.closed σ)).
Proof.
  intros Hmiss Hopen. unfold Factory.getTransport.
  now rewrite Hmiss, Hopen.
Qed.

(** The three ways through [getTransport]. *)
Lemma getTransport_cases (trans : TTransportPtr) (σ : Factory.Process E) :
  (∃ p, Factory.transportMap_ (Factory.factory σ) !! trans = Some p ∧
        Factory.getTransport open trans σ = (Ok p, σ)) ∨
  (Factory.transportMap_ (Factory.factory σ) !! trans = None ∧
   ∃ e σ', Factory.getTransport open trans σ = (Throw e, σ') ∧
           Factory.factory σ' = Factory.factory σ ∧
           Factory.objects σ' = Factory.objects σ) ∨
  (Factory.transportMap_ (Factory.factory σ) !! trans = None ∧
   ∃ p σ', Factory.getTransport open trans σ = (Ok p, σ') ∧
           Factory.transportMap_ (Factory.factory σ') =
             <[trans := p]> (Factory.transportMap_ (Factory.factory σ))).
Proof.
  destruct (Factory.transportMap_ (Factory.factory σ) !! trans) as [p|] eqn:Hl.
  - left. exists p. split; [reflexivity|]. now apply getTransport_hit.
  - right.
    destruct (open (Build_Env
                (mkTSaslServerTransport
                   (Factory.serverDefinitionMap_ (Factory.factory σ)) trans)
                (Factory.wire_at σ trans))) as [[u|e] σs] eqn:Hopen.
    + right. split; [reflexivity|]. do 2 eexists.
      rewrite (getTransport_miss_ok trans σ σs u Hl Hopen). simpl. eauto.
    + left. split; [reflexivity|]. do 2 eexists.
      rewrite (getTransport_miss_throw trans σ σs e Hl Hopen). simpl. eauto.
Qed.

(** C5. When the cache holds a session for the transport, [getTransport]
    returns that very session and changes nothing: no session is built
    and [open] is not run, whatever state the cached session is in. When
    it holds none, [getTransport] builds a session holding the registry of
    the factory around the transport, runs [open] on it and, [open] having
    returned, stores the opened session under a fresh address, enters that
    address in the cache under the transport and returns it. *)
Theorem getTransport_cached_or_new (trans : TTransportPtr)
    (σ : Factory.Process E) :
  (∀ p, Factory.transportMap_ (Factory.factory σ) !! trans = Some p →
        Factory.getTransport open trans σ = (Ok p, σ)) ∧
  (Factory.transportMap_ (Factory.factory σ) !! trans = None →
   let session :=
     mkTSaslServerTransport
       (Factory.serverDefinitionMap_ (Factory.factory σ)) trans in
   serverDefinitionMap_ session =
     Factory.serverDefinitionMap_ (Factory.factory σ) ∧
   transport_ session = trans ∧
   ∀ (u : unit) (σs : Env E),
     open (Build_Env session (Factory.wire_at σ trans)) = (Ok u, σs) →
     let p := fresh (dom (Factory.objects σ)) in
     let out := Factory.getTransport open trans σ in
     fst out = Ok p ∧
     Factory.objects σ !! p = None ∧
     Factory.objects (snd out) !! p = Some (self σs) ∧
     Factory.transportMap_ (Factory.factory (snd out)) !! trans = Some p ∧
     Factory.transportMap_ (Factory.factory (snd out)) =
       <[trans := p]> (Factory.transportMap_ (Factory.factory σ)) ∧
     Factory.wires (snd out) !! trans = Some (io σs)).
Proof.
  split.
  - intros p Hhit. now apply getTransport_hit.
  - intros Hmiss session.
    destruct (new_session_fields
                (Factory.serverDefinitionMap_ (Factory.factory σ)) trans)
      as (Hreg & Htr & _).
    split; [exact Hreg|]. split; [exact Htr|].
    intros u σs Hopen p out. subst out p.
    rewrite (getTransport_miss_ok trans σ σs u Hmiss Hopen). simpl.
    repeat split.
    + apply not_elem_of_dom. apply is_fresh.
    + apply lookup_insert_eq.
    + apply lookup_insert_eq.
    + apply lookup_insert_eq.
Qed.

(** [getTransport] raises only when the [open] of a new session raises. *)
Lemma getTransport_raises_only_from_open (trans : TTransportPtr)
    (σ : Factory.Process E) (e : exception) :
  fst (Factory.getTransport open trans σ) = Throw e →
  Factory.transportMap_ (Factory.factory σ) !! trans = None ∧
  ∃ σs, open (Build_Env
                (mkTSaslServerTransport
                   (Factory.serverDefinitionMap_ (Factory.factory σ)) trans)
                (Factory.wire_at σ trans)) = (Throw e, σs).
Proof.
  unfold Factory.getTransport.
  destruct (Factory.transportMap_ (Factory.factory σ) !! trans) as [p|] eqn:Hl;
    simpl; [discriminate|].
  destruct (open _) as [[u|e'] σs] eqn:Hopen; simpl; [discriminate|].
  intros [= ->]. eauto.
Qed.

(** C9. When the transport has no session in the cache and the [open] of
    the session built for it raises, [getTransport] raises the same
    exception, the cache is as it was before the call and holds no entry
    for the transport, and the abandoned session is not kept either. *)
Theorem getTransport_failure_keeps_cache (trans : TTransportPtr)
    (σ : Factory.Process E) (e : exception) (σs : Env E) :
  Factory.transportMap_ (Factory.factory σ) !! trans = None →
  open (Build_Env
          (mkTSaslServerTransport
             (Factory.serverDefinitionMap_ (Factory.factory σ)) trans)
          (Factory.wire_at σ trans)) = (Throw e, σs) →
  let out := Factory.getTransport open trans σ in
  fst out = Throw e ∧
  Factory.factory (snd out) = Factory.factory σ ∧
  Factory.transportMap_ (Factory.factory (snd out)) =
    Factory.transportMap_ (Factory.factory σ) ∧
  Factory.transportMap_ (Factory.factory (snd out)) !! trans = None ∧
  Factory.objects (snd out) = Factory.objects σ.
Proof.
  intros Hmiss Hopen out. subst out.
  rewrite (getTransport_miss_throw trans σ σs e Hmiss Hopen). simpl.
  repeat split; auto.
Qed.

(** No operation on a factory or on a transport removes a cache entry. *)
Lemma run_op_keeps_entry (o : Factory.op) (σ : Factory.Process E)
    (trans : TTransportPtr) (p : TSaslServerTransportPtr) :
  Factory.transportMap_ (Factory.factory σ) !! trans = Some p →
  Factory.transportMap_ (Factory.factory (Factory.run_op open o σ)) !! trans
    = Some p.
Proof.
  intros Hin. destruct o as [tr|tr]; simpl; [|exact Hin].
  destruct (getTransport_cases tr σ)
    as [(q & _ & ->) | [(_ & e & σ' & -> & Hf & _) | (Hmiss & q & σ' & -> & Hm)]];
    simpl.
  - exact Hin.
  - now rewrite Hf.
  - rewrite Hm. rewrite lookup_insert_ne; [exact Hin|].
    intros ->. rewrite Hin in Hmiss. discriminate.
Qed.

(** C6, as the code has it. The cache has no eviction: an entry, once in
    the cache, stays there and names the same session through every later
    sequence of [getTransport] calls and of closings of underlying
    transports, the closing of its own transport included. *)
Theorem cache_entry_never_removed (os : list Factory.op)
    (σ : Factory.Process E) (trans : TTransportPtr)
    (p : TSaslServerTransportPtr) :
  Factory.transportMap_ (Factory.factory σ) !! trans = Some p →
  Factory.transportMap_ (Factory.factory (Factory.run_ops open os σ)) !! trans
    = Some p.
Proof.
  revert σ. induction os as [|o os IH]; intros σ Hin; simpl.
  - exact Hin.
  - apply IH. now apply run_op_keeps_entry.
Qed.

End FactoryClaims.

(** ** Threads in [getTransport] *)

Section ThreadClaims.
Context {E : Type} `{TSasl E}.
Variable open : M (Env E) unit.

Lemma run_threads_extends (schedule : list nat) :
  ∀ c0 c c' : Factory.Conc,
    Factory.reachable open c0 c →
    Factory.run_threads open schedule c = Some c' →
    Factory.reachable open c0 c'.
Proof.
  induction schedule as [|i rest IH]; intros c0 c c' Hreach Hrun; simpl in Hrun.
  - now injection Hrun as <-.
  - destruct (Factory.thread_step open i c) as [c1|] eqn:Hs; [|discriminate].
    apply (IH c0 c1 c'); [|exact Hrun].
    eapply Factory.reach_step; [exact Hreach|]. now exists i.
Qed.

Lemma initial_inv (c : Factory.Conc (E:=E)) :
  Factory.initial c → Factory.inv c.
Proof.
  intros [Hmx Hall]. repeat split.
  - intros i p Hi Hp. destruct (Hall i p Hi) as [trans ->]. discriminate.
  - intros i trans p [Hi|Hi]; destruct (Hall i _ Hi) as [tr Heq]; discriminate.
  - intros i trans p [Hi|Hi]; destruct (Hall i _ Hi) as [tr Heq]; discriminate.
Qed.

(** Looking up a thread after one thread has moved. *)
Ltac other_thread i j Hi :=
  destruct (decide (i = j)) as [->|?];
  [rewrite lookup_insert_eq in Hi | rewrite lookup_insert_ne in Hi by done].

Lemma step_inv (j : nat) (c c' : Factory.Conc) :
  Factory.thread_step open j c = Some c' →
  Factory.inv c → Factory.inv c'.
Proof.
  intros Hstep (Hg & Hm & Hr). unfold Factory.thread_step in Hstep.
  destruct (Factory.threads c !! j) as [[tr|tr|tr q|tr q|tr r|tr r]|] eqn:Hj;
    try discriminate.
  - (* Entry: the mutex is taken *)
    destruct (Factory.transportMap_mutex_ c) as [o|] eqn:Hmx; [discriminate|].
    injection Hstep as <-. repeat split.
    + intros i p Hi Hp; simpl in *. other_thread i j Hi; [reflexivity|].
      specialize (Hg i p Hi Hp). congruence.
    + intros i trans p [Hi|Hi]; simpl in *; other_thread i j Hi;
        try discriminate; eapply Hm; eauto.
    + intros i trans p [Hi|Hi]; simpl in *; other_thread i j Hi;
        try discriminate; eapply Hr; eauto.
  - (* Locked: the lookup *)
    destruct (Factory.transportMap_ (Factory.factory (Factory.process c)) !! tr)
      as [s|] eqn:Hl; injection Hstep as <-; repeat split.
    + intros i p Hi Hp; simpl in *. other_thread i j Hi; [|eauto].
      apply (Hg j _ Hj). reflexivity.
    + intros i trans p [Hi|Hi]; simpl in *; other_thread i j Hi;
        try discriminate; eapply Hm; eauto.
    + intros i trans p [Hi|Hi]; simpl in *; other_thread i j Hi;
        try discriminate; try solve [eapply Hr; eauto].
      injection Hi as <- <-. exact Hl.
    + intros i p Hi Hp; simpl in *. other_thread i j Hi; [|eauto].
      apply (Hg j _ Hj). reflexivity.
    + intros i trans p [Hi|Hi]; simpl in *; other_thread i j Hi;
        try discriminate; try solve [eapply Hm; eauto].
      injection Hi as <- <-. exact Hl.
    + intros i trans p [Hi|Hi]; simpl in *; other_thread i j Hi;
        try discriminate; eapply Hr; eauto.
  - (* Opening: the handshake *)
    destruct (Factory.objects (Factory.process c) !! q) as [session|];
      [|discriminate].
    destruct (open _) as [[u|e] σs]; injection Hstep as <-; repeat split.
    + intros i p Hi Hp; simpl in *. other_thread i j Hi; [|eauto].
      apply (Hg j _ Hj). reflexivity.
    + intros i trans p [Hi|Hi]; simpl in *; other_thread i j Hi;
        try discriminate; try solve [eapply Hm; eauto].
      injection Hi as <- <-. eapply Hm; eauto.
    + intros i trans p [Hi|Hi]; simpl in *; other_thread i j Hi;
        try discriminate; eapply Hr; eauto.
    + intros i p Hi Hp; simpl in *. other_thread i j Hi; [|eauto].
      apply (Hg j _ Hj). reflexivity.
    + intros i trans p [Hi|Hi]; simpl in *; other_thread i j Hi;
        try discriminate; eapply Hm; eauto.
    + intros i trans p [Hi|Hi]; simpl in *; other_thread i j Hi;
        try discriminate; eapply Hr; eauto.
  - (* Inserting: the cache is written *)
    injection Hstep as <-.
    assert (Hfree : Factory.transportMap_ (Factory.factory (Factory.process c)) !! tr = None)
      by (eapply Hm; eauto).
    assert (Hown : Factory.transportMap_mutex_ c = Some j)
      by (apply (Hg j _ Hj); reflexivity).
    repeat split.
    + intros i p Hi Hp; simpl in *. other_thread i j Hi; [exact Hown|eauto].
    + intros i trans p Hi; simpl in *.
      assert (i ≠ j) as Hne.
      { intros ->. rewrite lookup_insert_eq in Hi. destruct Hi; discriminate. }
      rewrite !lookup_insert_ne in Hi by done.
      assert (Factory.transportMap_mutex_ c = Some i) as Hi'.
      { destruct Hi as [Hi|Hi]; apply (Hg i _ Hi); reflexivity. }
      congruence.
    + intros i trans p [Hi|Hi]; simpl in *; other_thread i j Hi;
        try discriminate.
      * injection Hi as <- <-. apply lookup_insert_eq.
      * rewrite lookup_insert_ne; [eapply Hr; eauto|].
        intros <-. rewrite (Hr i tr p) in Hfree by eauto. discriminate.
      * rewrite lookup_insert_ne; [eapply Hr; eauto|].
        intros <-. rewrite (Hr i tr p) in Hfree by eauto. discriminate.
  - (* Leaving: the mutex is released *)
    injection Hstep as <-.
    assert (Hown : Factory.transportMap_mutex_ c = Some j)
      by (apply (Hg j _ Hj); reflexivity).
    repeat split.
    + intros i p Hi Hp; simpl in *. other_thread i j Hi.
      * injection Hi as <-. discriminate.
      * specialize (Hg i p Hi Hp). congruence.
    + intros i trans p [Hi|Hi]; simpl in *; other_thread i j Hi;
        try discriminate; eapply Hm; eauto.
    + intros i trans p [Hi|Hi]; simpl in *; other_thread i j Hi;
        try discriminate; try solve [eapply Hr; eauto].
      injection Hi as -> ->. eapply Hr; eauto.
Qed.

Lemma reachable_inv (c0 c : Factory.Conc) :
  Factory.initial c0 → Factory.reachable open c0 c → Factory.inv c.
Proof.
  intros Hinit Hreach. induction Hreach as [|c1 c2 _ IH [j Hstep]].
  - now apply initial_inv.
  - exact (step_inv j c1 c2 Hstep IH).
Qed.

(** A thread at the entry cannot move while the mutex is owned. *)
Lemma entry_waits (j : nat) (c : Factory.Conc) (trans : TTransportPtr) (i : nat) :
  Factory.threads c !! j = Some (Factory.Entry trans) →
  Factory.transportMap_mutex_ c = Some i →
  Factory.blocked open j c.
Proof.
  intros Hj Hmx. split; [now exists trans|].
  unfold Factory.thread_step. now rewrite Hj, Hmx.
Qed.

(** X16. A thread running alone goes through [getTransport] as the
    function does: it returns what the function returns and leaves the
    process the function leaves, with the mutex free again, also when
    [open] raises. *)
Lemma thread_alone_runs_getTransport (i : nat) (trans : TTransportPtr)
    (c : Factory.Conc) :
  Factory.transportMap_mutex_ c = None →
  Factory.threads c !! i = Some (Factory.Entry trans) →
  let out := Factory.getTransport open trans (Factory.process c) in
  ∃ n c',
    Factory.run_threads open (replicate n i) c = Some c' ∧
    Factory.transportMap_mutex_ c' = None ∧
    Factory.process c' = snd out ∧
    Factory.threads c' =
      <[i := Factory.Returned trans (fst out)]> (Factory.threads c).
Proof.
  intros Hmx Hi out. subst out. unfold Factory.getTransport.
  destruct c as [mx σ ths]; simpl in *. subst mx.
  destruct (Factory.transportMap_ (Factory.factory σ) !! trans) as [p|] eqn:Hl.
  - exists 3%nat. eexists. simpl. unfold Factory.thread_step; simpl.
    rewrite Hi. simpl. unfold Factory.thread_step; simpl.
    rewrite lookup_insert_eq, Hl. simpl. unfold Factory.thread_step; simpl.
    rewrite lookup_insert_eq. simpl. split; [reflexivity|]. simpl.
    repeat split. now rewrite !insert_insert_eq.
  - set (q := fresh (dom (Factory.objects σ))).
    assert (Hq : Factory.objects σ !! q = None)
      by (apply not_elem_of_dom, is_fresh).
    destruct (open (Build_Env
                (mkTSaslServerTransport
                   (Factory.serverDefinitionMap_ (Factory.factory σ)) trans)
                (Factory.wire_at σ trans))) as [[u|e] σs] eqn:Hopen.
    + exists 5%nat. eexists. simpl. unfold Factory.thread_step; simpl.
      rewrite Hi. simpl. unfold Factory.thread_step; simpl.
      rewrite lookup_insert_eq, Hl. simpl. unfold Factory.thread_step; simpl.
      rewrite !lookup_insert_eq. unfold Factory.wire_at in *; simpl.
      rewrite Hopen. simpl. unfold Factory.thread_step; simpl.
      rewrite lookup_insert_eq. simpl. unfold Factory.thread_step; simpl.
      rewrite lookup_insert_eq. simpl. split; [reflexivity|]. simpl.
      fold q. rewrite !insert_insert_eq. repeat split.
    + exists 4%nat. eexists. simpl. unfold Factory.thread_step; simpl.
      rewrite Hi. simpl. unfold Factory.thread_step; simpl.
      rewrite lookup_insert_eq, Hl. simpl. unfold Factory.thread_step; simpl.
      rewrite !lookup_insert_eq. unfold Factory.wire_at in *; simpl.
      rewrite Hopen. simpl. unfold Factory.thread_step; simpl.
      rewrite lookup_insert_eq. simpl. split; [reflexivity|]. simpl.
      fold q. rewrite !insert_insert_eq, (delete_insert_id _ _ _ Hq).
      destruct σ; repeat split.
Qed.

(** C4, as the code has it. The lock guard of [getTransport] is taken on
    entry and dropped on return, so it covers the lookup, the building and
    the [open] of a new session, and the insertion. In every state that
    threads calling [getTransport] can reach: a thread anywhere between
    the lock and the return, the handshake of [open] included, owns the
    mutex; at most one thread is there; every other thread that has called
    [getTransport], for the same or for another transport, waits at the
    entry; and two calls that have returned for the same transport have
    returned the same session. *)
Theorem getTransport_lock_spans_call (c0 c : Factory.Conc) :
  Factory.initial c0 →
  Factory.reachable open c0 c →
  (∀ i p, Factory.threads c !! i = Some p → Factory.holds_guard p = true →
          Factory.transportMap_mutex_ c = Some i) ∧
  (∀ i j p q, Factory.threads c !! i = Some p → Factory.holds_guard p = true →
              Factory.threads c !! j = Some q → Factory.holds_guard q = true →
              i = j) ∧
  (∀ i j p trans,
     Factory.threads c !! i = Some p → Factory.holds_guard p = true →
     Factory.threads c !! j = Some (Factory.Entry trans) →
     Factory.blocked open j c) ∧
  (∀ i j trans p q,
     Factory.threads c !! i = Some (Factory.Returned trans (Ok p)) →
     Factory.threads c !! j = Some (Factory.Returned trans (Ok q)) →
     p = q).
Proof.
  intros Hinit Hreach.
  destruct (reachable_inv c0 c Hinit Hreach) as (Hg & Hm & Hr).
  repeat split.
  - exact Hg.
  - intros i j p q Hi Hp Hj Hq.
    pose proof (Hg i p Hi Hp) as Hmi. pose proof (Hg j q Hj Hq) as Hmj.
    congruence.
  - exists trans. assumption.
  - eapply (entry_waits j c trans i); [assumption|]. eapply Hg; eassumption.
  - intros i j trans p q Hi Hj.
    pose proof (Hr i trans p (or_intror Hi)) as Hpi.
    pose proof (Hr j trans q (or_intror Hj)) as Hqj.
    congruence.
Qed.

End ThreadClaims.

(** ** Concrete runs *)


Lemma non_start_status_rejected_witness :
  status {| status := TSASL_OK; resLength := 0; message := [] |} ≠ TSASL_START ∧
  fst (handleSaslStartMessage
         (Build_Env plain_session
            (wire_of {| status := TSASL_OK; resLength := 0; message := [] |}))) =
    Throw (TTransportException UNKNOWN "Expecting START status, received 2") ∧
  sent (io (snd (handleSaslStartMessage
         (Build_Env plain_session
            (wire_of {| status := TSASL_OK; resLength := 0; message := [] |}))))) =
    [{| f_status := TSASL_ERROR;
        f_payload := list_byte_of_string "Expecting START status, received 2" |}].
Proof.
  assert (Hst : status {| status := TSASL_OK; resLength := 0; message := [] |}
                ≠ TSASL_START) by (vm_compute; discriminate).
  split; [exact Hst|].
  pose proof (non_start_status_rejected plain_session
                (wire_of {| status := TSASL_OK; resLength := 0; message := [] |})
                {| status := TSASL_OK; resLength := 0; message := [] |} []
                eq_refl Hst)
    as (Hthrow & Hsent & _).
  split; [exact Hthrow | exact Hsent].
Defined.

(** The code at a START frame that holds the name PLAIN and nothing
    else: the engine is given the five bytes of the name, not the empty
    buffer that follows the name. *)
Lemma start_forwards_after_name_refuted :
  forwarded (snd (handleSaslStartMessage
               (Build_Env plain_session (wire_of (start_of "PLAIN"))))) =
    Some [list_byte_of_string "PLAIN"] ∧
  after_name (payload (start_of "PLAIN")) = [] ∧
  ¬ start_forwards_after_name TraceServer.
Proof.
  split; [vm_compute; reflexivity|]. split; [vm_compute; reflexivity|].
  intros Hclaim.
  specialize (Hclaim plain_session (wire_of (start_of "PLAIN"))
                (start_of "PLAIN") [] plain_definition
                eq_refl eq_refl ltac:(vm_compute; reflexivity) _ eq_refl).
  vm_compute in Hclaim. discriminate Hclaim.
Qed.

Lemma start_forwards_whole_payload_witness :
  findServerDefinition plain_session (start_of "PLAIN") = Some plain_definition ∧
  self (snd (handleSaslStartMessage
               (Build_Env plain_session (wire_of (start_of "PLAIN"))))) =
    set_sasl
      (Some {| ts_protocol := "impala"; ts_serverName := "localhost";
               ts_realm := ""; ts_flags := 0;
               ts_callbacks := callbacks_ plain_definition;
               ts_inputs := [list_byte_of_string "PLAIN"] |})
      plain_session.
Proof.
  assert (Hfind : findServerDefinition plain_session (start_of "PLAIN")
                  = Some plain_definition) by (vm_compute; reflexivity).
  split; [exact Hfind|].
  pose proof (start_forwards_whole_payload plain_session
                (wire_of (start_of "PLAIN")) (start_of "PLAIN") []
                plain_definition _ eq_refl eq_refl Hfind eq_refl)
    as (_ & Hself & _).
  exact Hself.
Defined.

Lemma mechanism_name_ends_at_first_nul_witness :
  findServerDefinition plain_session
    {| status := TSASL_START; resLength := 9;
       message := list_byte_of_string "PLAIN" ++ x00 :: list_byte_of_string "abc" |} =
  findServerDefinition plain_session
    {| status := TSASL_START; resLength := 6;
       message := list_byte_of_string "PLAIN" ++ [x00] |} ∧
  findServerDefinition plain_session
    {| status := TSASL_START; resLength := 9;
       message := list_byte_of_string "PLAIN" ++ x00 :: list_byte_of_string "abc" |} =
  Some plain_definition.
Proof.
  assert (Hname : Forall (λ b, b ≠ x00) (list_byte_of_string "PLAIN"))
    by (repeat constructor; discriminate).
  destruct (mechanism_name_ends_at_first_nul plain_session
              {| status := TSASL_START; resLength := 9;
                 message := list_byte_of_string "PLAIN"
                            ++ x00 :: list_byte_of_string "abc" |}
              {| status := TSASL_START; resLength := 6;
                 message := list_byte_of_string "PLAIN" ++ [x00] |}
              (list_byte_of_string "PLAIN") (list_byte_of_string "abc") []
              Hname eq_refl eq_refl) as [Hsame Hkey].
  split; [exact Hsame|]. rewrite Hkey. vm_compute. reflexivity.
Defined.

Lemma getTransport_cached_or_new_witness :
  Factory.transportMap_ (Factory.factory two_transports) !! 1%positive = None ∧
  fst (Factory.getTransport handleSaslStartMessage 1%positive two_transports)
    = Ok (fresh (dom (Factory.objects two_transports))) ∧
  Factory.transportMap_ (Factory.factory after_first_call) !! 1%positive
    = Some 1%positive ∧
  Factory.getTransport handleSaslStartMessage 1%positive after_first_call
    = (Ok 1%positive, after_first_call).
Proof.
  split; [reflexivity|].
  destruct (getTransport_cached_or_new handleSaslStartMessage 1%positive
              two_transports) as [_ Hmiss].
  destruct (Hmiss eq_refl) as (_ & _ & Hnew).
  set (env := Build_Env (E:=TraceServer)
                (mkTSaslServerTransport
                   (Factory.serverDefinitionMap_
                      (Factory.factory two_transports)) 1%positive)
                (Factory.wire_at two_transports 1%positive)) in Hnew.
  assert (Hopen : handleSaslStartMessage env
                  = (Ok tt, snd (handleSaslStartMessage env)))
    by (vm_compute; reflexivity).
  destruct (Hnew tt _ Hopen) as (Hret & _).
  split; [exact Hret|].
  assert (Hhit : Factory.transportMap_ (Factory.factory after_first_call)
                   !! 1%positive = Some 1%positive)
    by (vm_compute; reflexivity).
  split; [exact Hhit|].
  exact (proj1 (getTransport_cached_or_new handleSaslStartMessage 1%positive
                  after_first_call) 1%positive Hhit).
Defined.

Lemma getTransport_failure_keeps_cache_witness :
  Factory.transportMap_ (Factory.factory gssapi_transport) !! 1%positive = None ∧
  fst (handleSaslStartMessage
         (Build_Env (E:=TraceServer)
            (mkTSaslServerTransport
               (Factory.serverDefinitionMap_ (Factory.factory gssapi_transport))
               1%positive)
            (Factory.wire_at gssapi_transport 1%positive)))
    = Throw (TTransportException BAD_ARGS "Unsupported mechanism type GSSAPI") ∧
  fst (Factory.getTransport handleSaslStartMessage 1%positive gssapi_transport)
    = Throw (TTransportException BAD_ARGS "Unsupported mechanism type GSSAPI") ∧
  Factory.transportMap_
    (Factory.factory
       (snd (Factory.getTransport handleSaslStartMessage 1%positive
               gssapi_transport))) = ∅.
Proof.
  set (env := Build_Env (E:=TraceServer)
                (mkTSaslServerTransport
                   (Factory.serverDefinitionMap_
                      (Factory.factory gssapi_transport)) 1%positive)
                (Factory.wire_at gssapi_transport 1%positive)).
  assert (Hopen : handleSaslStartMessage env
                  = (Throw (TTransportException BAD_ARGS
                              "Unsupported mechanism type GSSAPI"),
                     snd (handleSaslStartMessage env)))
    by (vm_compute; reflexivity).
  split; [reflexivity|]. split; [now rewrite Hopen|].
  destruct (getTransport_failure_keeps_cache handleSaslStartMessage 1%positive
              gssapi_transport _ _ eq_refl Hopen) as (Hthrow & _ & Hmap & _).
  split; [exact Hthrow | exact Hmap].
Defined.

(** The code after transport 1 has been wrapped and closed: the transport
    is closed and its session is still in the cache. *)
Lemma closed_transports_evicted_refuted :
  1%positive ∈ Factory.closed used_then_closed ∧
  Factory.transportMap_ (Factory.factory used_then_closed) !! 1%positive
    = Some 1%positive ∧
  ¬ closed_transports_evicted (E:=TraceServer) handleSaslStartMessage.
Proof.
  assert (Hclosed : 1%positive ∈ Factory.closed used_then_closed).
  { unfold used_then_closed. simpl. set_solver. }
  assert (Hkept : Factory.transportMap_ (Factory.factory used_then_closed)
                    !! 1%positive = Some 1%positive)
    by (vm_compute; reflexivity).
  split; [exact Hclosed|]. split; [exact Hkept|].
  intros Hclaim.
  specialize (Hclaim [Factory.GetTransport 1%positive; Factory.Close 1%positive]
                two_transports eq_refl eq_refl 1%positive Hclosed).
  assert (Hnone : Factory.transportMap_ (Factory.factory used_then_closed)
                    !! 1%positive = None) by exact Hclaim.
  rewrite Hkept in Hnone. discriminate.
Qed.

Lemma cache_entry_never_removed_witness :
  Factory.transportMap_ (Factory.factory after_first_call) !! 1%positive
    = Some 1%positive ∧
  Factory.transportMap_
    (Factory.factory
       (Factory.run_ops handleSaslStartMessage
          [Factory.Close 1%positive; Factory.GetTransport 2%positive;
           Factory.GetTransport 1%positive]
          after_first_call)) !! 1%positive = Some 1%positive.
Proof.
  assert (Hhit : Factory.transportMap_ (Factory.factory after_first_call)
                   !! 1%positive = Some 1%positive)
    by (vm_compute; reflexivity).
  split; [exact Hhit|].
  exact (cache_entry_never_removed handleSaslStartMessage
           [Factory.Close 1%positive; Factory.GetTransport 2%positive;
            Factory.GetTransport 1%positive]
           after_first_call 1%positive 1%positive Hhit).
Defined.

Lemma two_calls_initial : Factory.initial two_calls.
Proof.
  split; [reflexivity|]. intros i p Hi. unfold two_calls in Hi; simpl in Hi.
  apply lookup_insert_Some in Hi as [[_ <-]|[_ Hi]]; [eauto|].
  apply lookup_singleton_Some in Hi as [_ <-]. eauto.
Qed.

Lemma during_handshake_reachable :
  Factory.reachable handleSaslStartMessage two_calls during_handshake.
Proof.
  apply (run_threads_extends handleSaslStartMessage [0%nat; 0%nat]
           two_calls two_calls during_handshake); [constructor|].
  vm_compute. reflexivity.
Qed.

(** The code with two calls for two distinct transports: while the first
    thread is inside [open], holding the mutex, the second thread, whose
    transport is another one, cannot take a step. *)
Lemma distinct_calls_never_block_refuted :
  Factory.threads during_handshake !! 0%nat
    = Some (Factory.Opening 1%positive 1%positive) ∧
  Factory.transportMap_mutex_ during_handshake = Some 0%nat ∧
  Factory.threads during_handshake !! 1%nat = Some (Factory.Entry 2%positive) ∧
  Factory.thread_step handleSaslStartMessage 1%nat during_handshake = None ∧
  ¬ Factory.distinct_calls_never_block (E:=TraceServer) handleSaslStartMessage.
Proof.
  assert (H0 : Factory.threads during_handshake !! 0%nat
               = Some (Factory.Opening 1%positive 1%positive))
    by (vm_compute; reflexivity).
  assert (H1 : Factory.threads during_handshake !! 1%nat
               = Some (Factory.Entry 2%positive))
    by (vm_compute; reflexivity).
  assert (Hs : Factory.thread_step handleSaslStartMessage 1%nat during_handshake
               = None)
    by (vm_compute; reflexivity).
  split; [exact H0|]. split; [vm_compute; reflexivity|].
  split; [exact H1|]. split; [exact Hs|].
  intros Hclaim.
  apply (Hclaim two_calls during_handshake two_calls_initial
           during_handshake_reachable 0%nat 1%nat
           (Factory.Opening 1%positive 1%positive) 2%positive
           H0 eq_refl H1 ltac:(simpl; discriminate)).
  split; [now exists 2%positive | exact Hs].
Qed.

Lemma getTransport_lock_spans_call_witness :
  Factory.initial two_calls ∧
  Factory.reachable handleSaslStartMessage two_calls during_handshake ∧
  Factory.transportMap_mutex_ during_handshake = Some 0%nat ∧
  Factory.blocked handleSaslStartMessage 1%nat during_handshake.
Proof.
  split; [exact two_calls_initial|]. split; [exact during_handshake_reachable|].
  destruct (getTransport_lock_spans_call handleSaslStartMessage two_calls
              during_handshake two_calls_initial during_handshake_reachable)
    as (Hown & _ & Hwait & _).
  split.
  - exact (Hown 0%nat (Factory.Opening 1%positive 1%positive)
             ltac:(vm_compute; reflexivity) eq_refl).
  - exact (Hwait 0%nat 1%nat (Factory.Opening 1%positive 1%positive) 2%positive
             ltac:(vm_compute; reflexivity) eq_refl
             ltac:(vm_compute; reflexivity)).
Defined.

(** * Further properties *)

(** ** Reading a name from a buffer *)

Lemma ascii_of_byte_zero (b : byte) :
  Byte.eqb b x00 = false → Ascii.eqb (ascii_of_byte b) Ascii.zero = false.
Proof.
  intros Hb. destruct (Ascii.eqb_spec (ascii_of_byte b) Ascii.zero) as [He|];
    [|reflexivity].
  apply (f_equal byte_of_ascii) in He. rewrite byte_of_ascii_of_byte in He.
  subst b. discriminate.
Qed.

Lemma byte_of_ascii_zero (c : ascii) :
  Ascii.eqb c Ascii.zero = false → Byte.eqb (byte_of_ascii c) x00 = false.
Proof.
  intros Hc. destruct (Byte.eqb (byte_of_ascii c) x00) eqn:Hb; [|reflexivity].
  apply Byte.byte_dec_bl in Hb. apply (f_equal ascii_of_byte) in Hb.
  rewrite ascii_of_byte_of_ascii in Hb. subst c. discriminate.
Qed.

Lemma c_str_has_no_nul (mem : list byte) : has_nul (c_str mem) = false.
Proof.
  induction mem as [|b mem IH]; simpl; [reflexivity|].
  destruct (Byte.eqb b x00) eqn:Hb; simpl; [reflexivity|].
  now rewrite (ascii_of_byte_zero b Hb).
Qed.

Lemma c_str_of_terminated (s : string) (slack : list byte) :
  has_nul s = false →
  c_str (list_byte_of_string s ++ x00 :: slack) = s.
Proof.
  induction s as [|c s IH]; simpl; intros Hs; [reflexivity|].
  destruct (Ascii.eqb c Ascii.zero) eqn:Hc; [discriminate|].
  unfold list_byte_of_string in *. simpl.
  rewrite (byte_of_ascii_zero c Hc), ascii_of_byte_of_ascii.
  now rewrite IH.
Qed.

Section SessionExtras.
Context {E : Type} `{TSasl E}.

Lemma start_empty_wire (t : TSaslServerTransport E) (w : Wire) :
  incoming w = [] →
  ∃ e, handleSaslStartMessage (Build_Env t w) = (Throw e, Build_Env t w).
Proof.
  intros Hin. eexists.
  unfold handleSaslStartMessage, bind, receiveSaslMessage. simpl.
  rewrite Hin. reflexivity.
Qed.

(** The four ways through [handleSaslStartMessage] once a frame is there. *)
Lemma start_cases (t : TSaslServerTransport E) (w : Wire)
    (r : SaslMessage) (rest : list SaslMessage) :
  incoming w = r :: rest →
  let out := handleSaslStartMessage (Build_Env t w) in
  (status r ≠ TSASL_START ∧
   ∃ e fr, f_status fr = TSASL_ERROR ∧
           out = (Throw e, Build_Env t (consumed w rest [fr]))) ∨
  (status r = TSASL_START ∧ findServerDefinition t r = None ∧
   ∃ e fr, f_status fr = TSASL_BAD ∧
           out = (Throw e, Build_Env t (consumed w rest [fr]))) ∨
  (status r = TSASL_START ∧
   ∃ d x, findServerDefinition t r = Some d ∧
          TSaslServer (protocol_ d) (serverName_ d) "" (flags_ d) (callbacks_ d)
            = Throw x ∧
          out = (Throw x, Build_Env t (consumed w rest []))) ∨
  (status r = TSASL_START ∧
   ∃ d server, findServerDefinition t r = Some d ∧
          TSaslServer (protocol_ d) (serverName_ d) "" (flags_ d) (callbacks_ d)
            = Ok server ∧
          out =
            (match fst (evaluateChallengeOrResponse server (payload r)) with
             | Ok _ => Ok tt
             | Throw x => Throw x
             end,
             Build_Env
               (set_sasl
                  (Some (snd (evaluateChallengeOrResponse server (payload r)))) t)
               (consumed w rest []))).
Proof.
  intros Hin out. subst out.
  destruct (Z.eq_dec (status r) TSASL_START) as [Hst|Hst].
  - destruct (findServerDefinition t r) as [d|] eqn:Hfind.
    + destruct (TSaslServer (protocol_ d) (serverName_ d) "" (flags_ d)
                  (callbacks_ d)) as [server|x] eqn:Hnew.
      * do 3 right. split; [exact Hst|]. exists d, server.
        repeat split; try assumption.
        exact (start_resolved t w r rest d server Hin Hst Hfind Hnew).
      * do 2 right. left. split; [exact Hst|]. exists d, x.
        repeat split; try assumption.
        exact (start_resolved_no_engine t w r rest d x Hin Hst Hfind Hnew).
    + right. left. repeat split; try assumption. do 2 eexists.
      split; [|exact (start_unresolved t w r rest Hin Hst Hfind)]. reflexivity.
  - left. split; [exact Hst|]. do 2 eexists.
    split; [|exact (start_not_START t w r rest Hin Hst)]. reflexivity.
Qed.

Lemma start_keeps_fields :
  keeps_fixed_fields (handleSaslStartMessage (E:=E)).
Proof.
  intros [t w]. simpl. destruct (incoming w) as [|r rest] eqn:Hin.
  - destruct (start_empty_wire t w Hin) as [e ->]. now repeat split.
  - destruct (start_cases t w r rest Hin)
      as [(_ & e & fr & _ & ->) | [(_ & _ & e & fr & _ & ->)
         | [(_ & d & x & _ & _ & ->) | (_ & d & server & _ & _ & ->)]]];
      now repeat split.
Qed.

End SessionExtras.

Section SessionFurther.
Context {E : Type} `{TSasl E}.

Ltac settle_reply Hfind :=
  repeat split; intros;
  repeat match goal with
         | Hx : ∃ _, _ |- _ => destruct Hx
         | Hx : _ ∧ _ |- _ => destruct Hx
         end;
  try rewrite Hfind in *;
  repeat match goal with
         | Hfr : _ ∈ [_] |- _ => apply list_elem_of_singleton in Hfr; subst
         | Hfr : _ ∈ [] |- _ => inversion Hfr
         | Hs : is_Some None |- _ => destruct Hs; discriminate
         end;
  try match goal with
      | Hs : f_status ?fr = _, Hs' : f_status ?fr = _ |- _ =>
          rewrite Hs in Hs'; vm_compute in Hs'; discriminate
      end;
  try contradiction; try discriminate; try congruence; eauto;
  try (eexists; split; [apply list_elem_of_singleton; reflexivity|assumption]).

(** X1. Which reply [handleSaslStartMessage] writes tells the peer what
    went wrong: it writes an ERROR frame exactly when the status of the
    frame is not START, a BAD frame exactly when the frame is a START frame
    whose name the registry does not hold, and nothing at all exactly when
    the frame is a START frame whose name the registry holds. *)
Theorem start_reply_by_case (t : TSaslServerTransport E) (w : Wire)
    (r : SaslMessage) (rest : list SaslMessage) :
  incoming w = r :: rest →
  ∃ new : list Frame,
    sent (io (snd (handleSaslStartMessage (Build_Env t w)))) = sent w ++ new ∧
    ((∃ fr, fr ∈ new ∧ f_status fr = TSASL_ERROR) ↔ status r ≠ TSASL_START) ∧
    ((∃ fr, fr ∈ new ∧ f_status fr = TSASL_BAD) ↔
       status r = TSASL_START ∧ findServerDefinition t r = None) ∧
    (new = [] ↔
       status r = TSASL_START ∧ is_Some (findServerDefinition t r)).
Proof.
  intros Hin.
  destruct (start_cases t w r rest Hin)
    as [(Hst & e & fr & Hfr & ->) | [(Hst & Hfind & e & fr & Hfr & ->)
       | [(Hst & d & x & Hfind & _ & ->) | (Hst & d & server & Hfind & _ & ->)]]];
    simpl.
  - exists [fr]. split; [reflexivity|].
    assert (Hfind : True) by exact I. settle_reply Hfind.
  - exists [fr]. split; [reflexivity|]. settle_reply Hfind.
  - exists []. split; [reflexivity|]. settle_reply Hfind.
  - exists []. split; [reflexivity|]. settle_reply Hfind.
Qed.

(** X2. [handleSaslStartMessage] returns normally only after a START frame
    whose name the registry holds, once the engine has been built from the
    definition and its first evaluation step has returned; the session then
    holds the engine that step left. *)
Theorem start_success_installs_engine (t : TSaslServerTransport E) (w : Wire) :
  fst (handleSaslStartMessage (Build_Env t w)) = Ok tt →
  ∃ r rest d server challenge,
    incoming w = r :: rest ∧ status r = TSASL_START ∧
    findServerDefinition t r = Some d ∧
    TSaslServer (protocol_ d) (serverName_ d) "" (flags_ d) (callbacks_ d)
      = Ok server ∧
    fst (evaluateChallengeOrResponse server (payload r)) = Ok challenge ∧
    sasl_ (self (snd (handleSaslStartMessage (Build_Env t w)))) =
      Some (snd (evaluateChallengeOrResponse server (payload r))).
Proof.
  intros Hok. destruct (incoming w) as [|r rest] eqn:Hin.
  - destruct (start_empty_wire t w Hin) as [e He]. rewrite He in Hok.
    discriminate.
  - destruct (start_cases t w r rest Hin)
      as [(_ & e & fr & _ & He) | [(_ & _ & e & fr & _ & He)
         | [(_ & d & x & _ & _ & He) | (Hst & d & server & Hfind & Hnew & He)]]];
      rewrite He in Hok |- *; simpl in Hok; try discriminate.
    destruct (evaluateChallengeOrResponse server (payload r))
      as [[challenge|x] e'] eqn:Hstep; simpl in Hok; [|discriminate].
    exists r, rest, d, server, challenge. rewrite ?Hstep. simpl.
    repeat split; assumption || reflexivity.
Qed.

(** X3. [handleSaslStartMessage] never changes the transport a session
    wraps, its role or its registry, whatever is on the wire. *)
Theorem start_preserves_fixed_fields (t : TSaslServerTransport E) (w : Wire) :
  transport_ (self (snd (handleSaslStartMessage (Build_Env t w))))
    = transport_ t ∧
  isClient_ (self (snd (handleSaslStartMessage (Build_Env t w))))
    = isClient_ t ∧
  serverDefinitionMap_ (self (snd (handleSaslStartMessage (Build_Env t w))))
    = serverDefinitionMap_ t.
Proof. exact (start_keeps_fields (Build_Env t w)). Qed.

(** X4. [handleSaslStartMessage] takes exactly one frame from the wire:
    the frames behind it stay in order for the next read, and what had
    been written before stays written. On a wire with no frame it raises,
    writes nothing and leaves the session as it was. *)
Theorem start_takes_one_frame (t : TSaslServerTransport E) (w : Wire) :
  let out := handleSaslStartMessage (Build_Env t w) in
  incoming (io (snd out)) = tail (incoming w) ∧
  (∃ new, sent (io (snd out)) = sent w ++ new) ∧
  (incoming w = [] → (∃ e, fst out = Throw e) ∧ snd out = Build_Env t w).
Proof.
  intros out. subst out. destruct (incoming w) as [|r rest] eqn:Hin.
  - destruct (start_empty_wire t w Hin) as [e ->]. simpl.
    repeat split; eauto. exists []. now rewrite app_nil_r.
  - destruct (start_cases t w r rest Hin)
      as [(_ & e & fr & _ & ->) | [(_ & _ & e & fr & _ & ->)
         | [(_ & d & x & _ & _ & ->) | (_ & d & server & _ & _ & ->)]]];
      simpl; repeat split; eauto; discriminate.
Qed.

(** X5. An engine installed with [setSaslServer] does not survive the
    START frame: on a server-role session, handling the first frame after
    [setSaslServer] raises or returns as it would have without the call,
    and when it returns the session is the one it would have been, with
    the engine built from the registry. *)
Theorem start_replaces_installed_engine (t : TSaslServerTransport E) (w : Wire)
    (saslServer : option E) :
  isClient_ t = false →
  let σ1 := snd (setSaslServer saslServer (Build_Env t w)) in
  fst (handleSaslStartMessage σ1) = fst (handleSaslStartMessage (Build_Env t w)) ∧
  io (snd (handleSaslStartMessage σ1))
    = io (snd (handleSaslStartMessage (Build_Env t w))) ∧
  (fst (handleSaslStartMessage (Build_Env t w)) = Ok tt →
   snd (handleSaslStartMessage σ1) = snd (handleSaslStartMessage (Build_Env t w))).
Proof.
  intros Hrole σ1. subst σ1.
  unfold setSaslServer, bind, gets, sasl_reset, modify. simpl. rewrite Hrole.
  simpl. destruct (incoming w) as [|r rest] eqn:Hin.
  - unfold handleSaslStartMessage, bind, receiveSaslMessage. simpl.
    rewrite Hin. simpl. repeat split. discriminate.
  - assert (Hfind : findServerDefinition (set_sasl saslServer t) r
                    = findServerDefinition t r) by reflexivity.
    destruct (Z.eq_dec (status r) TSASL_START) as [Hst|Hst].
    + destruct (findServerDefinition t r) as [d|] eqn:Hd.
      * destruct (TSaslServer (protocol_ d) (serverName_ d) "" (flags_ d)
                    (callbacks_ d)) as [server|x] eqn:Hnew.
        -- rewrite (start_resolved t w r rest d server Hin Hst Hd Hnew).
           rewrite (start_resolved (set_sasl saslServer t) w r rest d server
                      Hin Hst Hfind Hnew).
           simpl. repeat split.
        -- rewrite (start_resolved_no_engine t w r rest d x Hin Hst Hd Hnew).
           rewrite (start_resolved_no_engine (set_sasl saslServer t) w r rest
                      d x Hin Hst Hfind Hnew).
           simpl. repeat split. discriminate.
      * rewrite (start_unresolved t w r rest Hin Hst Hd).
        rewrite (start_unresolved (set_sasl saslServer t) w r rest Hin Hst Hfind).
        simpl. repeat split. discriminate.
    + rewrite (start_not_START t w r rest Hin Hst).
      rewrite (start_not_START (set_sasl saslServer t) w r rest Hin Hst).
      simpl. repeat split. discriminate.
Qed.

(** X6. The name a frame is looked up under never holds a NUL, so a
    definition registered only under a name with a NUL in it is found by
    no frame: a session whose registry holds nothing else answers every
    START frame with BAD. *)
Theorem nul_name_never_resolved (t : TSaslServerTransport E)
    (name : string) (d : TSaslServerDefinition) (r : SaslMessage) :
  has_nul name = true →
  findServerDefinition (with_registry {[ name := d ]} t) r = None.
Proof.
  intros Hnul. unfold findServerDefinition, with_registry. simpl.
  apply lookup_singleton_ne. intros ->.
  rewrite c_str_has_no_nul in Hnul. discriminate.
Qed.

(** X7. A name without NUL, written to the buffer and followed by a NUL, is
    read back as it was: the frame is looked up under exactly that name,
    whatever lies behind the NUL and whatever length was received. *)
Theorem terminated_name_resolves (t : TSaslServerTransport E)
    (name : string) (slack : list byte) (r : SaslMessage) :
  has_nul name = false →
  message r = list_byte_of_string name ++ x00 :: slack →
  findServerDefinition t r = serverDefinitionMap_ t !! name.
Proof.
  intros Hname Hmsg. unfold findServerDefinition.
  now rewrite Hmsg, c_str_of_terminated.
Qed.

(** X8. A session built from a transport alone has an empty registry: it
    answers every START frame with a BAD frame naming the mechanism, raises
    the BAD_ARGS transport exception and gets no engine. *)
Theorem bare_session_rejects_every_start (transport : TTransportPtr) (w : Wire)
    (r : SaslMessage) (rest : list SaslMessage) :
  incoming w = r :: rest →
  status r = TSASL_START →
  let ss := "Unsupported mechanism type " +:+ c_str (message r) in
  handleSaslStartMessage (Build_Env (mkTSaslServerTransport_bare (E:=E) transport) w) =
    (Throw (TTransportException BAD_ARGS ss),
     Build_Env (mkTSaslServerTransport_bare transport)
       {| incoming := rest;
          sent := sent w ++ [{| f_status := TSASL_BAD;
                                f_payload := list_byte_of_string ss |}] |}).
Proof.
  intros Hin Hst ss.
  exact (start_unresolved (mkTSaslServerTransport_bare transport) w r rest
           Hin Hst (lookup_empty _)).
Qed.

(** X9. A session built for one mechanism resolves a frame exactly when
    the name read from the frame is that mechanism, and then to the
    definition made of the constructor's arguments. *)
Theorem single_mechanism_session_lookup (mechanism protocol serverName : string)
    (flags : Z) (props : gmap string string) (callbacks : list sasl_callback)
    (transport : TTransportPtr) (r : SaslMessage) :
  findServerDefinition
    (mkTSaslServerTransport_mechanism (E:=E) mechanism protocol serverName
       flags props callbacks transport) r =
  if decide (c_str (message r) = mechanism) then
    Some {| protocol_ := protocol; serverName_ := serverName; flags_ := flags;
            props_ := props; callbacks_ := callbacks |}
  else None.
Proof.
  unfold findServerDefinition, mkTSaslServerTransport_mechanism,
    addServerDefinition, with_registry, TSaslTransport_init. simpl.
  rewrite lookup_insert. destruct (decide (c_str (message r) = mechanism)).
  - now rewrite decide_True.
  - rewrite decide_False by congruence. apply lookup_empty.
Qed.

End SessionFurther.

(** ** More on the factory *)

Section FactoryFurther.
Context {E : Type} `{TSasl E}.
Variable open : M (Env E) unit.

(** The outcome of [getTransport] with the state it leaves, way by way. *)
Lemma getTransport_outcome (trans : TTransportPtr) (σ : Factory.Process E) :
  let session :=
    mkTSaslServerTransport
      (Factory.serverDefinitionMap_ (Factory.factory σ)) trans in
  let σs := snd (open (Build_Env session (Factory.wire_at σ trans))) in
  let p := fresh (dom (Factory.objects σ)) in
  (∃ q, Factory.transportMap_ (Factory.factory σ) !! trans = Some q ∧
        Factory.getTransport open trans σ = (Ok q, σ)) ∨
  (Factory.transportMap_ (Factory.factory σ) !! trans = None ∧
   ∃ e, fst (open (Build_Env session (Factory.wire_at σ trans))) = Throw e ∧
        Factory.getTransport open trans σ =
          (Throw e,
           Factory.Build_Process (Factory.factory σ) (Factory.objects σ)
             (<[trans := io σs]> (Factory.wires σ)) (Factory.closed σ))) ∨
  (Factory.transportMap_ (Factory.factory σ) !! trans = None ∧
   Factory.objects σ !! p = None ∧
   ∃ u, fst (open (Build_Env session (Factory.wire_at σ trans))) = Ok u ∧
        Factory.getTransport open trans σ =
          (Ok p,
           Factory.Build_Process
             {| Factory.serverDefinitionMap_ :=
                  Factory.serverDefinitionMap_ (Factory.factory σ);
                Factory.transportMap_ :=
                  <[trans := p]> (Factory.transportMap_ (Factory.factory σ)) |}
             (<[p := self σs]> (Factory.objects σ))
             (<[trans := io σs]> (Factory.wires σ))
             (Factory.closed σ))).
Proof.
  intros session σs p. subst σs p session.
  destruct (Factory.transportMap_ (Factory.factory σ) !! trans) as [q|] eqn:Hl.
  - left. exists q. split; [reflexivity|]. now apply getTransport_hit.
  - right.
    destruct (open (Build_Env
                (mkTSaslServerTransport
                   (Factory.serverDefinitionMap_ (Factory.factory σ)) trans)
                (Factory.wire_at σ trans))) as [[u|e] σs] eqn:Hopen.
    + right. split; [reflexivity|].
      split; [apply not_elem_of_dom, is_fresh|]. exists u.
      split; [reflexivity|].
      exact (getTransport_miss_ok open trans σ σs u Hl Hopen).
    + left. split; [reflexivity|]. exists e. split; [reflexivity|].
      exact (getTransport_miss_throw open trans σ σs e Hl Hopen).
Qed.

(** X10. A second call of [getTransport] for the same transport returns
    the session the first call returned and changes nothing: the handshake
    of a transport runs once. *)
Theorem getTransport_twice (trans : TTransportPtr) (σ σ' : Factory.Process E)
    (p : TSaslServerTransportPtr) :
  Factory.getTransport open trans σ = (Ok p, σ') →
  Factory.getTransport open trans σ' = (Ok p, σ').
Proof.
  intros Hfirst.
  destruct (getTransport_outcome trans σ)
    as [(q & Hq & He) | [(_ & e & _ & He) | (_ & _ & u & _ & He)]];
    rewrite He in Hfirst.
  - injection Hfirst as <- <-. exact He.
  - discriminate.
  - injection Hfirst as <- <-. apply getTransport_hit. simpl.
    apply lookup_insert_eq.
Qed.

(** X11. [getTransport] for one transport leaves the rest of the process
    alone: the registry of the factory and the set of closed transports
    are unchanged, the cache entries and the wires of all other transports
    are unchanged, and every session already on the heap stays there
    unchanged. *)
Theorem getTransport_frame (trans : TTransportPtr) (σ : Factory.Process E) :
  let σ' := snd (Factory.getTransport open trans σ) in
  Factory.serverDefinitionMap_ (Factory.factory σ')
    = Factory.serverDefinitionMap_ (Factory.factory σ) ∧
  Factory.closed σ' = Factory.closed σ ∧
  (∀ trans', trans' ≠ trans →
     Factory.transportMap_ (Factory.factory σ') !! trans'
       = Factory.transportMap_ (Factory.factory σ) !! trans' ∧
     Factory.wires σ' !! trans' = Factory.wires σ !! trans') ∧
  (∀ q session, Factory.objects σ !! q = Some session →
                Factory.objects σ' !! q = Some session).
Proof.
  intros σ'. subst σ'.
  destruct (getTransport_outcome trans σ)
    as [(q & _ & ->) | [(_ & e & _ & ->) | (_ & Hfresh & u & _ & ->)]]; simpl.
  - repeat split; auto.
  - repeat split; auto. now rewrite lookup_insert_ne.
  - repeat split; auto.
    + now rewrite lookup_insert_ne.
    + now rewrite lookup_insert_ne.
    + intros q session Hq. rewrite lookup_insert_ne; [exact Hq|].
      intros <-. rewrite Hq in Hfresh. discriminate.
Qed.

Lemma run_op_cache_wf (o : Factory.op) (σ : Factory.Process E) :
  cache_wf σ → cache_wf (Factory.run_op open o σ).
Proof.
  intros [Halloc Hinj]. destruct o as [trans|closing].
  2: { split; [exact Halloc|exact Hinj]. }
  simpl.
  destruct (getTransport_outcome trans σ)
    as [(q & _ & ->) | [(_ & e & _ & ->) | (Hmiss & Hfresh & u & _ & ->)]];
    simpl; try (split; [exact Halloc|exact Hinj]).
  set (p := fresh (dom (Factory.objects σ))) in *.
  assert (Hold : ∀ tr, Factory.transportMap_ (Factory.factory σ) !! tr ≠ Some p).
  { intros tr Htr. destruct (Halloc tr p Htr) as [s Hs]. congruence. }
  split; simpl.
  - intros tr q Hq. rewrite lookup_insert in Hq.
    destruct (decide (trans = tr)) as [->|Hne].
    + injection Hq as <-. rewrite lookup_insert_eq. eauto.
    + rewrite lookup_insert_ne; [now apply (Halloc tr)|].
      intros <-. now apply (Hold tr).
  - intros tr1 tr2 q H1 H2. rewrite lookup_insert in H1, H2.
    destruct (decide (trans = tr1)) as [Heq1|Hne1];
      destruct (decide (trans = tr2)) as [Heq2|Hne2].
    + congruence.
    + injection H1 as <-. now destruct (Hold tr2).
    + injection H2 as <-. now destruct (Hold tr1).
    + now apply (Hinj tr1 tr2 q).
Qed.

(** X12. The cache never hands one session to two transports: when every
    cached address is allocated and no two transports share one, as in an
    empty cache, the same holds after any sequence of [getTransport] calls
    and closings, whatever the handshakes do. *)
Theorem cache_stays_one_to_one (os : list Factory.op) (σ : Factory.Process E) :
  cache_wf σ → cache_wf (Factory.run_ops open os σ).
Proof.
  revert σ. induction os as [|o os IH]; intros σ Hwf; simpl; [exact Hwf|].
  apply IH. now apply run_op_cache_wf.
Qed.

Lemma run_op_cache_bound (o : Factory.op) (σ : Factory.Process E) :
  keeps_fixed_fields open →
  cache_wf σ → cache_bound σ → cache_bound (Factory.run_op open o σ).
Proof.
  intros Hkeeps [Halloc _] Hbound. destruct o as [trans|closing].
  2: { exact Hbound. }
  simpl.
  destruct (getTransport_outcome trans σ)
    as [(q & _ & ->) | [(_ & e & _ & ->) | (Hmiss & Hfresh & u & _ & ->)]];
    simpl; try exact Hbound.
  set (p := fresh (dom (Factory.objects σ))) in *.
  intros tr q session Hq Hs. simpl in *.
  rewrite lookup_insert in Hq. destruct (decide (trans = tr)) as [->|Hne].
  - injection Hq as <-. rewrite lookup_insert_eq in Hs. injection Hs as <-.
    destruct (Hkeeps (Build_Env
                (mkTSaslServerTransport
                   (Factory.serverDefinitionMap_ (Factory.factory σ)) tr)
                (Factory.wire_at σ tr))) as (Htr & Hrole & Hreg).
    simpl in Htr, Hrole, Hreg. rewrite Htr, Hrole, Hreg.
    repeat split. apply (left_id_L ∅ (∪)).
  - assert (q ≠ p) as Hqp.
    { intros ->. destruct (Halloc tr p Hq) as [s' Hs']. congruence. }
    rewrite lookup_insert_ne in Hs by congruence.
    exact (Hbound tr q session Hq Hs).
Qed.

(** X13. With a handshake that leaves the transport, the role and the
    registry of a session alone, as [handleSaslStartMessage] does, every
    session in the cache wraps the transport it is cached under, is in
    the server role and holds the registry of the factory, after any
    sequence of [getTransport] calls and closings. *)
Theorem cached_sessions_stay_bound (os : list Factory.op)
    (σ : Factory.Process E) :
  keeps_fixed_fields open →
  cache_wf σ → cache_bound σ →
  cache_bound (Factory.run_ops open os σ).
Proof.
  intros Hkeeps. revert σ.
  induction os as [|o os IH]; intros σ Hwf Hbound; simpl; [exact Hbound|].
  apply IH; [now apply run_op_cache_wf | now apply run_op_cache_bound].
Qed.

(** X14. A failed handshake does not stick to the transport: after a call
    of [getTransport] that raised, the next call for the same transport
    builds a new session and runs [open] again on what the first handshake
    left on the wire; when that [open] returns, the call returns the new
    session, which is on the heap at the returned address and is the
    cache entry of the transport. *)
Theorem getTransport_retry_after_failure (trans : TTransportPtr)
    (σ : Factory.Process E) (e : exception) :
  fst (Factory.getTransport open trans σ) = Throw e →
  let σ1 := snd (Factory.getTransport open trans σ) in
  let session :=
    mkTSaslServerTransport
      (Factory.serverDefinitionMap_ (Factory.factory σ)) trans in
  let left_on_wire := io (snd (open (Build_Env session (Factory.wire_at σ trans)))) in
  Factory.wire_at σ1 trans = left_on_wire ∧
  ∀ u σs, open (Build_Env session left_on_wire) = (Ok u, σs) →
    fst (Factory.getTransport open trans σ1) = Ok (fresh (dom (Factory.objects σ))) ∧
    Factory.objects (snd (Factory.getTransport open trans σ1))
      !! fresh (dom (Factory.objects σ)) = Some (self σs) ∧
    Factory.transportMap_ (Factory.factory (snd (Factory.getTransport open trans σ1)))
      !! trans = Some (fresh (dom (Factory.objects σ))) ∧
    Factory.transportMap_ (Factory.factory (snd (Factory.getTransport open trans σ1)))
      = <[trans := fresh (dom (Factory.objects σ))]>
          (Factory.transportMap_ (Factory.factory σ)).
Proof.
  intros Hthrow σ1 session left_on_wire. subst σ1 left_on_wire session.
  destruct (getTransport_outcome trans σ)
    as [(q & _ & He) | [(Hmiss & e' & _ & He) | (_ & _ & u & _ & He)]];
    rewrite He in Hthrow |- *; simpl in Hthrow; try discriminate.
  simpl.
  assert (Hwire : Factory.wire_at
            (Factory.Build_Process (Factory.factory σ) (Factory.objects σ)
               (<[trans := io (snd (open (Build_Env
                    (mkTSaslServerTransport
                       (Factory.serverDefinitionMap_ (Factory.factory σ)) trans)
                    (Factory.wire_at σ trans))))]> (Factory.wires σ))
               (Factory.closed σ)) trans
          = io (snd (open (Build_Env
                    (mkTSaslServerTransport
                       (Factory.serverDefinitionMap_ (Factory.factory σ)) trans)
                    (Factory.wire_at σ trans))))).
  { unfold Factory.wire_at. simpl. now rewrite lookup_insert_eq. }
  split; [exact Hwire|].
  intros u σs Hopen.
  rewrite (getTransport_miss_ok open trans _ σs u); simpl.
  - repeat split; try reflexivity; apply lookup_insert_eq.
  - exact Hmiss.
  - rewrite Hwire. exact Hopen.
Qed.

(** X17. Whatever the handshake does after [handleSaslStartMessage], a
    first frame that [handleSaslStartMessage] rejects fails the call of
    [getTransport]: when the transport is not cached and its first frame
    is not a START frame, or names a mechanism the registry of the factory
    does not hold, [getTransport] raises, the cache and the heap are as
    before, and the wire of the transport has lost that frame and gained
    one reply, ERROR or BAD. *)
Theorem getTransport_rejects_first_frame (k : unit → M (Env E) unit)
    (trans : TTransportPtr) (σ : Factory.Process E)
    (r : SaslMessage) (rest : list SaslMessage) :
  Factory.transportMap_ (Factory.factory σ) !! trans = None →
  incoming (Factory.wire_at σ trans) = r :: rest →
  status r ≠ TSASL_START ∨
    Factory.serverDefinitionMap_ (Factory.factory σ) !! c_str (message r) = None →
  ∃ e fr,
    Factory.getTransport (bind handleSaslStartMessage k) trans σ =
      (Throw e,
       Factory.Build_Process (Factory.factory σ) (Factory.objects σ)
         (<[trans := consumed (Factory.wire_at σ trans) rest [fr]]>
            (Factory.wires σ))
         (Factory.closed σ)) ∧
    f_status fr =
      (if Z.eqb (status r) TSASL_START then TSASL_BAD else TSASL_ERROR).
Proof.
  intros Hmiss Hin Hrej.
  set (session := mkTSaslServerTransport (E:=E)
                    (Factory.serverDefinitionMap_ (Factory.factory σ)) trans).
  assert (Hreg : findServerDefinition session r =
                 Factory.serverDefinitionMap_ (Factory.factory σ)
                   !! c_str (message r)).
  { unfold findServerDefinition, session, mkTSaslServerTransport. simpl.
    now rewrite (left_id_L ∅ (∪)). }
  destruct (Z.eqb_spec (status r) TSASL_START) as [Hst|Hst].
  - destruct Hrej as [Hne|Hnone]; [contradiction|].
    rewrite <- Hreg in Hnone.
    pose proof (start_unresolved session _ r rest Hin Hst Hnone) as Hstart.
    simpl in Hstart.
    assert (Hopen : bind handleSaslStartMessage k
                      (Build_Env session (Factory.wire_at σ trans)) = (_, _))
      by (unfold bind at 1; rewrite Hstart; reflexivity).
    do 2 eexists. split.
    + rewrite (getTransport_miss_throw _ trans σ _ _ Hmiss Hopen). reflexivity.
    + reflexivity.
  - pose proof (start_not_START session _ r rest Hin Hst) as Hstart.
    simpl in Hstart.
    assert (Hopen : bind handleSaslStartMessage k
                      (Build_Env session (Factory.wire_at σ trans)) = (_, _))
      by (unfold bind at 1; rewrite Hstart; reflexivity).
    do 2 eexists. split.
    + rewrite (getTransport_miss_throw _ trans σ _ _ Hmiss Hopen). reflexivity.
    + reflexivity.
Qed.

End FactoryFurther.

(** ** More on the threads *)

Section ThreadFurther.
Context {E : Type} `{TSasl E}.
Variable open : M (Env E) unit.

Ltac moved_thread i j Hi :=
  destruct (decide (i = j)) as [->|?];
  [rewrite lookup_insert_eq in Hi | rewrite lookup_insert_ne in Hi by done].

Lemma initial_owner_inv (c : Factory.Conc (E:=E)) :
  Factory.initial c → owner_inv c.
Proof.
  intros [Hmx Hall]. split.
  - intros i Hi. congruence.
  - intros i tr p Hi. destruct (Hall i _ Hi) as [tr' Heq]. discriminate.
Qed.

Lemma step_owner_inv (j : nat) (c c' : Factory.Conc) :
  Factory.thread_step open j c = Some c' →
  Factory.inv c → owner_inv c → owner_inv c'.
Proof.
  intros Hstep (Hg & _ & _) (Hown & Halloc). unfold Factory.thread_step in Hstep.
  destruct (Factory.threads c !! j) as [[tr|tr|tr q|tr q|tr r|tr r]|] eqn:Hj;
    try discriminate.
  - destruct (Factory.transportMap_mutex_ c) as [o|] eqn:Hmx; [discriminate|].
    injection Hstep as <-. split; simpl.
    + intros i [= <-]. rewrite lookup_insert_eq. eauto.
    + intros i tr' p Hi. moved_thread i j Hi; [discriminate|]. eauto.
  - assert (Hmx : Factory.transportMap_mutex_ c = Some j)
      by (apply (Hg j _ Hj); reflexivity).
    destruct (Factory.transportMap_ (Factory.factory (Factory.process c)) !! tr)
      as [s|]; injection Hstep as <-; split; simpl.
    + intros i Hi. rewrite Hmx in Hi. injection Hi as <-.
      rewrite lookup_insert_eq. eauto.
    + intros i tr' p Hi. moved_thread i j Hi; [discriminate|]. eauto.
    + intros i Hi. rewrite Hmx in Hi. injection Hi as <-.
      rewrite lookup_insert_eq. eauto.
    + intros i tr' p Hi. moved_thread i j Hi.
      * injection Hi as <- <-. rewrite lookup_insert_eq. eauto.
      * apply lookup_insert_is_Some'. right. eauto.
  - assert (Hmx : Factory.transportMap_mutex_ c = Some j)
      by (apply (Hg j _ Hj); reflexivity).
    assert (Hothers : ∀ i tr' p, i ≠ j →
              Factory.threads c !! i = Some (Factory.Opening tr' p) → False).
    { intros i tr' p Hne Hi. specialize (Hg i _ Hi eq_refl). congruence. }
    destruct (Factory.objects (Factory.process c) !! q) as [session|];
      [|discriminate].
    destruct (open _) as [[u|e] σs]; injection Hstep as <-; split; simpl.
    + intros i Hi. rewrite Hmx in Hi. injection Hi as <-.
      rewrite lookup_insert_eq. eauto.
    + intros i tr' p Hi. moved_thread i j Hi; [discriminate|].
      now destruct (Hothers i tr' p).
    + intros i Hi. rewrite Hmx in Hi. injection Hi as <-.
      rewrite lookup_insert_eq. eauto.
    + intros i tr' p Hi. moved_thread i j Hi; [discriminate|].
      now destruct (Hothers i tr' p).
  - assert (Hmx : Factory.transportMap_mutex_ c = Some j)
      by (apply (Hg j _ Hj); reflexivity).
    injection Hstep as <-. split; simpl.
    + intros i Hi. rewrite Hmx in Hi. injection Hi as <-.
      rewrite lookup_insert_eq. eauto.
    + intros i tr' p Hi. moved_thread i j Hi; [discriminate|]. eauto.
  - injection Hstep as <-. split; simpl.
    + intros i Hi. discriminate.
    + intros i tr' p Hi. moved_thread i j Hi; [discriminate|]. eauto.
Qed.

Lemma reachable_owner_inv (c0 c : Factory.Conc) :
  Factory.initial c0 → Factory.reachable open c0 c →
  Factory.inv c ∧ owner_inv c.
Proof.
  intros Hinit Hreach. induction Hreach as [|c1 c2 _ [IHi IHo] [j Hstep]].
  - split; [now apply initial_inv | now apply initial_owner_inv].
  - split; [exact (step_inv open j c1 c2 Hstep IHi)
           | exact (step_owner_inv j c1 c2 Hstep IHi IHo)].
Qed.

(** X15. The mutex never outlives a call of [getTransport]: in every state
    that threads calling it can reach, the mutex is owned only by a thread
    that is between the lock and the return of its call; a call that has
    returned, with a session or with an exception of [open], does not own
    it; and when no thread is inside, the mutex is free. *)
Theorem getTransport_mutex_owned_only_inside (c0 c : Factory.Conc) :
  Factory.initial c0 →
  Factory.reachable open c0 c →
  (∀ i, Factory.transportMap_mutex_ c = Some i →
        ∃ p, Factory.threads c !! i = Some p ∧ Factory.holds_guard p = true) ∧
  (∀ i trans r, Factory.threads c !! i = Some (Factory.Returned trans r) →
                Factory.transportMap_mutex_ c ≠ Some i) ∧
  ((∀ i p, Factory.threads c !! i = Some p → Factory.holds_guard p = false) →
   Factory.transportMap_mutex_ c = None).
Proof.
  intros Hinit Hreach.
  destruct (reachable_owner_inv c0 c Hinit Hreach) as [_ [Hown _]].
  split; [exact Hown|]. split.
  - intros i trans r Hi Hmx. destruct (Hown i Hmx) as (p & Hp & Hguard).
    rewrite Hi in Hp. injection Hp as <-. discriminate.
  - intros Houtside.
    destruct (Factory.transportMap_mutex_ c) as [k|] eqn:Hmx; [|reflexivity].
    destruct (Hown k eq_refl) as (p & Hp & Hguard).
    rewrite (Houtside k p Hp) in Hguard. discriminate.
Qed.

End ThreadFurther.

(** ** Concrete runs of the further properties *)

Lemma empty_cache_wf {E : Type} (σ : Factory.Process E) :
  Factory.transportMap_ (Factory.factory σ) = ∅ → cache_wf σ.
Proof.
  intros Hempty. split.
  - intros tr p Hp. rewrite Hempty, lookup_empty in Hp. discriminate.
  - intros tr1 tr2 p Hp. rewrite Hempty, lookup_empty in Hp. discriminate.
Qed.

Lemma empty_cache_bound {E : Type} (σ : Factory.Process E) :
  Factory.transportMap_ (Factory.factory σ) = ∅ → cache_bound σ.
Proof.
  intros Hempty tr p session Hp. rewrite Hempty, lookup_empty in Hp.
  discriminate.
Qed.

Lemma start_reply_by_case_witness :
  ∃ new : list Frame,
    sent (io (snd (handleSaslStartMessage
            (Build_Env plain_session (wire_of (start_of "GSSAPI"))))))
      = [] ++ new ∧
    ((∃ fr, fr ∈ new ∧ f_status fr = TSASL_BAD) ↔
       status (start_of "GSSAPI") = TSASL_START ∧
       findServerDefinition plain_session (start_of "GSSAPI") = None).
Proof.
  destruct (start_reply_by_case plain_session (wire_of (start_of "GSSAPI"))
              (start_of "GSSAPI") [] eq_refl) as (new & Hsent & _ & Hbad & _).
  exists new. split; [exact Hsent | exact Hbad].
Defined.

Lemma start_success_installs_engine_witness :
  fst (handleSaslStartMessage
         (Build_Env plain_session (wire_of (start_of "PLAIN")))) = Ok tt ∧
  ∃ r rest d server challenge,
    incoming (wire_of (start_of "PLAIN")) = r :: rest ∧
    status r = TSASL_START ∧
    findServerDefinition plain_session r = Some d ∧
    TSaslServer (protocol_ d) (serverName_ d) "" (flags_ d) (callbacks_ d)
      = Ok server ∧
    fst (evaluateChallengeOrResponse server (payload r)) = Ok challenge ∧
    sasl_ (self (snd (handleSaslStartMessage
             (Build_Env plain_session (wire_of (start_of "PLAIN"))))))
      = Some (snd (evaluateChallengeOrResponse server (payload r))).
Proof.
  assert (Hok : fst (handleSaslStartMessage
                  (Build_Env plain_session (wire_of (start_of "PLAIN"))))
                = Ok tt) by (vm_compute; reflexivity).
  split; [exact Hok|].
  exact (start_success_installs_engine plain_session
           (wire_of (start_of "PLAIN")) Hok).
Defined.

Lemma start_takes_one_frame_witness :
  incoming {| incoming := []; sent := [] |} = [] ∧
  snd (handleSaslStartMessage
         (Build_Env plain_session {| incoming := []; sent := [] |}))
    = Build_Env plain_session {| incoming := []; sent := [] |}.
Proof.
  split; [reflexivity|].
  destruct (start_takes_one_frame plain_session {| incoming := []; sent := [] |})
    as (_ & _ & Hempty).
  exact (proj2 (Hempty eq_refl)).
Defined.

Lemma start_replaces_installed_engine_witness :
  isClient_ plain_session = false ∧
  forwarded
    (snd (handleSaslStartMessage
            (snd (setSaslServer
                    (Some {| ts_protocol := "other"; ts_serverName := "elsewhere";
                             ts_realm := ""; ts_flags := 0; ts_callbacks := [];
                             ts_inputs := [] |})
                    (Build_Env plain_session (wire_of (start_of "PLAIN")))))))
  = forwarded
      (snd (handleSaslStartMessage
              (Build_Env plain_session (wire_of (start_of "PLAIN"))))).
Proof.
  split; [reflexivity|].
  destruct (start_replaces_installed_engine plain_session
              (wire_of (start_of "PLAIN"))
              (Some {| ts_protocol := "other"; ts_serverName := "elsewhere";
                       ts_realm := ""; ts_flags := 0; ts_callbacks := [];
                       ts_inputs := [] |})
              eq_refl) as (_ & _ & Hsame).
  rewrite (Hsame ltac:(vm_compute; reflexivity)). reflexivity.
Defined.

Lemma nul_name_never_resolved_witness :
  has_nul (String Ascii.zero "PLAIN") = true ∧
  findServerDefinition
    (with_registry {[ String Ascii.zero "PLAIN" := plain_definition ]}
       plain_session)
    (start_of "PLAIN") = None.
Proof.
  split; [reflexivity|].
  exact (nul_name_never_resolved plain_session (String Ascii.zero "PLAIN")
           plain_definition (start_of "PLAIN") eq_refl).
Defined.

Lemma terminated_name_resolves_witness :
  has_nul "PLAIN" = false ∧
  findServerDefinition plain_session
    {| status := TSASL_START; resLength := 5;
       message := list_byte_of_string "PLAIN" ++ x00 :: list_byte_of_string "junk" |}
  = serverDefinitionMap_ plain_session !! "PLAIN".
Proof.
  split; [reflexivity|].
  exact (terminated_name_resolves plain_session "PLAIN"
           (list_byte_of_string "junk")
           {| status := TSASL_START; resLength := 5;
              message := list_byte_of_string "PLAIN"
                         ++ x00 :: list_byte_of_string "junk" |}
           eq_refl eq_refl).
Defined.

Lemma bare_session_rejects_every_start_witness :
  status (start_of "PLAIN") = TSASL_START ∧
  fst (handleSaslStartMessage
         (Build_Env (mkTSaslServerTransport_bare (E:=TraceServer) 1%positive)
            (wire_of (start_of "PLAIN")))) =
    Throw (TTransportException BAD_ARGS "Unsupported mechanism type PLAIN").
Proof.
  split; [reflexivity|].
  rewrite (bare_session_rejects_every_start (E:=TraceServer) 1%positive
             (wire_of (start_of "PLAIN")) (start_of "PLAIN") []
             eq_refl eq_refl).
  reflexivity.
Defined.

Lemma getTransport_twice_witness :
  Factory.getTransport handleSaslStartMessage 1%positive two_transports
    = (Ok 1%positive, after_first_call) ∧
  Factory.getTransport handleSaslStartMessage 1%positive after_first_call
    = (Ok 1%positive, after_first_call).
Proof.
  assert (Hfirst : Factory.getTransport handleSaslStartMessage 1%positive
                     two_transports = (Ok 1%positive, after_first_call))
    by (vm_compute; reflexivity).
  split; [exact Hfirst|].
  exact (getTransport_twice handleSaslStartMessage 1%positive two_transports
           after_first_call 1%positive Hfirst).
Defined.

Lemma cache_stays_one_to_one_witness :
  cache_wf two_transports ∧
  cache_wf
    (Factory.run_ops handleSaslStartMessage
       [Factory.GetTransport 1%positive; Factory.GetTransport 2%positive;
        Factory.Close 1%positive; Factory.GetTransport 1%positive]
       two_transports).
Proof.
  assert (Hwf : cache_wf two_transports) by (apply empty_cache_wf; reflexivity).
  split; [exact Hwf|].
  exact (cache_stays_one_to_one handleSaslStartMessage _ two_transports Hwf).
Defined.

Lemma cached_sessions_stay_bound_witness :
  keeps_fixed_fields (handleSaslStartMessage (E:=TraceServer)) ∧
  cache_bound
    (Factory.run_ops handleSaslStartMessage
       [Factory.GetTransport 1%positive; Factory.GetTransport 2%positive]
       two_transports).
Proof.
  split; [exact start_keeps_fields|].
  exact (cached_sessions_stay_bound handleSaslStartMessage
           [Factory.GetTransport 1%positive; Factory.GetTransport 2%positive]
           two_transports start_keeps_fields
           (empty_cache_wf two_transports eq_refl)
           (empty_cache_bound two_transports eq_refl)).
Defined.

Lemma getTransport_retry_after_failure_witness :
  fst (Factory.getTransport handleSaslStartMessage 1%positive retry_transport)
    = Throw (TTransportException BAD_ARGS "Unsupported mechanism type GSSAPI") ∧
  fst (Factory.getTransport handleSaslStartMessage 1%positive
         (snd (Factory.getTransport handleSaslStartMessage 1%positive
                 retry_transport)))
    = Ok (fresh (dom (Factory.objects retry_transport))) ∧
  Factory.transportMap_
    (Factory.factory
       (snd (Factory.getTransport handleSaslStartMessage 1%positive
               (snd (Factory.getTransport handleSaslStartMessage 1%positive
                       retry_transport))))) !! 1%positive
    = Some (fresh (dom (Factory.objects retry_transport))).
Proof.
  assert (Hthrow :
    fst (Factory.getTransport handleSaslStartMessage 1%positive retry_transport)
    = Throw (TTransportException BAD_ARGS "Unsupported mechanism type GSSAPI"))
    by (vm_compute; reflexivity).
  split; [exact Hthrow|].
  destruct (getTransport_retry_after_failure handleSaslStartMessage 1%positive
              retry_transport _ Hthrow) as [_ Hretry].
  set (env := Build_Env (E:=TraceServer) _ _) in Hretry.
  assert (Hopen : handleSaslStartMessage env
                  = (Ok tt, snd (handleSaslStartMessage env)))
    by (vm_compute; reflexivity).
  destruct (Hretry tt _ Hopen) as (Hret & _ & Hcached & _).
  split; [exact Hret | exact Hcached].
Defined.

Lemma one_rejected_call_initial : Factory.initial one_rejected_call.
Proof.
  split; [reflexivity|]. intros i p Hi.
  unfold one_rejected_call in Hi; simpl in Hi.
  apply lookup_singleton_Some in Hi as [_ <-]. eauto.
Qed.

Lemma after_rejected_call_reachable :
  Factory.reachable handleSaslStartMessage one_rejected_call after_rejected_call.
Proof.
  apply (run_threads_extends handleSaslStartMessage
           [0%nat; 0%nat; 0%nat; 0%nat]
           one_rejected_call one_rejected_call after_rejected_call);
    [constructor|].
  vm_compute. reflexivity.
Qed.

Lemma getTransport_mutex_owned_only_inside_witness :
  Factory.threads after_rejected_call !! 0%nat
    = Some (Factory.Returned 1%positive
              (Throw (TTransportException BAD_ARGS
                        "Unsupported mechanism type GSSAPI"))) ∧
  Factory.transportMap_mutex_ after_rejected_call ≠ Some 0%nat.
Proof.
  assert (Hret : Factory.threads after_rejected_call !! 0%nat
                 = Some (Factory.Returned 1%positive
                           (Throw (TTransportException BAD_ARGS
                                     "Unsupported mechanism type GSSAPI"))))
    by (vm_compute; reflexivity).
  split; [exact Hret|].
  destruct (getTransport_mutex_owned_only_inside handleSaslStartMessage
              one_rejected_call after_rejected_call one_rejected_call_initial
              after_rejected_call_reachable) as (_ & Hreturned & _).
  exact (Hreturned 0%nat _ _ Hret).
Defined.

Lemma thread_alone_runs_getTransport_witness :
  Factory.transportMap_mutex_ two_calls = None ∧
  ∃ n c',
    Factory.run_threads handleSaslStartMessage (replicate n 0%nat) two_calls
      = Some c' ∧
    Factory.transportMap_mutex_ c' = None ∧
    Factory.process c'
      = snd (Factory.getTransport handleSaslStartMessage 1%positive
               (Factory.process two_calls)) ∧
    Factory.threads c'
      = <[0%nat := Factory.Returned 1%positive
                     (fst (Factory.getTransport handleSaslStartMessage 1%positive
                             (Factory.process two_calls)))]>
          (Factory.threads two_calls).
Proof.
  split; [reflexivity|].
  exact (thread_alone_runs_getTransport handleSaslStartMessage 0%nat 1%positive
           two_calls eq_refl eq_refl).
Defined.

Lemma getTransport_rejects_first_frame_witness :
  Factory.transportMap_ (Factory.factory gssapi_transport) !! 1%positive = None ∧
  ∃ e fr,
    Factory.getTransport (bind handleSaslStartMessage (λ _, ret tt)) 1%positive
      gssapi_transport =
      (Throw e,
       Factory.Build_Process (Factory.factory gssapi_transport)
         (Factory.objects gssapi_transport)
         (<[1%positive :=
              consumed (Factory.wire_at gssapi_transport 1%positive) [] [fr]]>
            (Factory.wires gssapi_transport))
         (Factory.closed gssapi_transport)) ∧
    f_status fr = TSASL_BAD.
Proof.
  split; [reflexivity|].
  assert (Hnone : Factory.serverDefinitionMap_ (Factory.factory gssapi_transport)
                    !! c_str (message (start_of "GSSAPI")) = None)
    by (vm_compute; reflexivity).
  exact (getTransport_rejects_first_frame (E:=TraceServer) (λ _, ret tt)
           1%positive gssapi_transport (start_of "GSSAPI") []
           eq_refl eq_refl (or_intror Hnone)).
Defined.
